(** * GDB client script for Qiling snapshots: a shallow embedding

    Source: [qiling/debugger/gdb/client_scripts/snapshots.py].

    The script registers the [snapshot] prefix command and its
    sub-commands in a GDB client.  Every sub-command talks to the target
    through [gdb.execute('monitor snapshot;...', to_string=True)] and
    inspects the text that comes back.

    Modelling choices.
    - A Python [str] is a [string]; every character is read as a code
      point below 256.  A Python [bytes] is a [list byte].
    - Python integers are unbounded: [Z].  Lengths and slice bounds are
      natural numbers.
    - A raised exception is the left summand of a result; the effects of
      a command (monitor commands executed, console output, file writes)
      are logged in order in an event list that is threaded through the
      code.
    - The target, the file system and the argument splitter
      ([gdb.string_to_argv]) are outside the script: the first two are an
      explicit [environment], and [invoke] is modelled on the argument
      vector.  [gdb.execute] is taken to return the answer of the target;
      the progress bar of [tqdm] does not change what is sent. *)

From Stdlib Require Import Bool Arith ZArith NArith Lia List.
From Stdlib Require Import Strings.Ascii Strings.String Strings.Byte.
From Stdlib Require Import DecimalString HexadecimalString.
From Stdlib Require HexadecimalPos.
Import ListNotations.

Local Open Scope list_scope.
Local Open Scope string_scope.

(* ================================================================== *)
(** * Python built-ins used by the script *)
(* ================================================================== *)

Module Py.

(** [sub in s] on strings. *)
Fixpoint contains (sub s : string) : bool :=
  String.prefix sub s ||
  match s with
  | EmptyString => false
  | String _ rest => contains sub rest
  end.

(** [len(s) != 0], the truth value of a string. *)
Definition truthy (s : string) : bool :=
  match s with EmptyString => false | String _ _ => true end.

Definition code (c : ascii) : N := N_of_ascii c.

(** C [isspace] of the "C" locale, as used by [int] on ASCII text and by
    [bytes.fromhex]. *)
Definition is_ascii_space (c : ascii) : bool :=
  ((9 <=? code c) && (code c <=? 13))%N || (code c =? 32)%N.

(** [int] first maps the non-ASCII white space of its argument to a
    blank; below 256 these are NEL (0x85) and NBSP (0xA0). *)
Definition is_int_space (c : ascii) : bool :=
  is_ascii_space c || (code c =? 133)%N || (code c =? 160)%N.

(** Value of a character as a digit in bases up to 36. *)
Definition digit_value (c : ascii) : option N :=
  let n := code c in
  if ((48 <=? n) && (n <=? 57))%N then Some (n - 48)%N
  else if ((97 <=? n) && (n <=? 122))%N then Some (n - 87)%N
  else if ((65 <=? n) && (n <=? 90))%N then Some (n - 55)%N
  else None.

Definition is_digit (base : N) (c : ascii) : bool :=
  match digit_value c with
  | Some d => (d <? base)%N
  | None => false
  end.

Fixpoint lstrip (s : string) : string :=
  match s with
  | String c rest => if is_int_space c then lstrip rest else s
  | EmptyString => s
  end.

(** Digits after the first one.  A single underscore may separate two
    digits; [prev_us] tells that the previous character was one.  The
    result is the value read, the number of digits read (underscores
    are not counted) and the text left unread. *)
Fixpoint scan_digits (base : N) (prev_us : bool) (acc : N) (digits : N) (s : string)
  : option (N * N * string) :=
  match s with
  | String c rest =>
      if Ascii.eqb c "_" then
        if prev_us then None else scan_digits base true acc digits rest
      else
        match digit_value c with
        | Some d =>
            if (d <? base)%N
            then scan_digits base false (acc * base + d)%N (digits + 1)%N rest
            else if prev_us then None else Some (acc, digits, s)
        | None => if prev_us then None else Some (acc, digits, s)
        end
  | EmptyString => if prev_us then None else Some (acc, digits, s)
  end.

(** The digit string must start with a digit. *)
Definition parse_digits (base : N) (s : string) : option (N * N * string) :=
  match s with
  | String c rest =>
      match digit_value c with
      | Some d => if (d <? base)%N then scan_digits base false d 1 rest else None
      | None => None
      end
  | EmptyString => None
  end.

(** [sys.get_int_max_str_digits()], at its default: a text with more
    digits is refused by [int] unless the base is a power of two. *)
Definition MAX_STR_DIGITS : N := 4300.

Definition power_of_two (base : N) : bool :=
  (base =? 2)%N || (base =? 4)%N || (base =? 8)%N || (base =? 16)%N || (base =? 32)%N.

Definition split_sign (s : string) : bool * string :=
  match s with
  | String c rest =>
      if Ascii.eqb c "+" then (false, rest)
      else if Ascii.eqb c "-" then (true, rest)
      else (false, s)
  | EmptyString => (false, s)
  end.

(** With base 16 a leading [0x] or [0X] is skipped, and one underscore
    after it. *)
Definition skip_prefix (base : N) (s : string) : string :=
  if (base =? 16)%N then
    match s with
    | String c0 (String c1 rest) =>
        if Ascii.eqb c0 "0" && (Ascii.eqb c1 "x" || Ascii.eqb c1 "X") then
          match rest with
          | String c2 rest' => if Ascii.eqb c2 "_" then rest' else rest
          | EmptyString => rest
          end
        else s
    | _ => s
    end
  else s.

(** [int(s, base)] for an explicit base (10 and 16 here); [None] stands
    for [ValueError]: a text that is not an integer literal, or one of
    more than [MAX_STR_DIGITS] digits in a base that is not a power of
    two (leading zeros count, underscores do not). *)
Definition int (base : N) (s : string) : option Z :=
  let (neg, body) := split_sign (lstrip s) in
  match parse_digits base (skip_prefix base body) with
  | Some (n, digits, rest) =>
      if negb (power_of_two base) && (MAX_STR_DIGITS <? digits)%N then None
      else
        match lstrip rest with
        | EmptyString => Some (if neg then (- Z.of_N n)%Z else Z.of_N n)
        | String _ _ => None
        end
  | None => None
  end.

(** [str(n)] and [f'{n}'] for an integer.  [str] has the same limit of
    [MAX_STR_DIGITS] digits; the script formats only a number that
    [int] has just read, which has no more digits than that. *)
Definition str_of_int (n : Z) : string :=
  DecimalString.NilZero.string_of_int (Z.to_int n).

(** [hex(n)]. *)
Definition hex (n : Z) : string :=
  let digits := HexadecimalString.NilZero.string_of_uint (N.to_hex_uint (Z.abs_N n)) in
  if (n <? 0)%Z then "-0x" ++ digits else "0x" ++ digits.

Definition hex_char (d : N) : ascii :=
  if (d <? 10)%N then ascii_of_N (48 + d) else ascii_of_N (87 + d).

(** [b.hex()]: two lower-case digits per byte. *)
Fixpoint bytes_hex (b : list byte) : string :=
  match b with
  | [] => EmptyString
  | x :: rest =>
      let n := Byte.to_N x in
      String (hex_char (n / 16)) (String (hex_char (n mod 16)) (bytes_hex rest))
  end.

Definition byte_of_N (n : N) : byte :=
  match Byte.of_N n with Some b => b | None => x00 end.

(** [bytes.fromhex(s)]: pairs of hexadecimal digits, ASCII white space
    allowed between pairs; [None] stands for [ValueError]. *)
Fixpoint bytes_fromhex (s : string) : option (list byte) :=
  match s with
  | EmptyString => Some []
  | String c rest =>
      if is_ascii_space c then bytes_fromhex rest
      else if is_digit 16 c then
        match rest with
        | String c' rest' =>
            if is_digit 16 c' then
              match digit_value c, digit_value c', bytes_fromhex rest' with
              | Some hi, Some lo, Some tl => Some (byte_of_N (16 * hi + lo) :: tl)
              | _, _, _ => None
              end
            else None
        | EmptyString => None
        end
      else None
  end.

(** Line boundaries of [str.splitlines] below code point 256. *)
Definition is_linebreak (c : ascii) : bool :=
  let n := code c in
  ((10 <=? n) && (n <=? 13))%N || ((28 <=? n) && (n <=? 30))%N || (n =? 133)%N.

(** [line] is the text read since the last boundary. *)
Fixpoint splitlines_from (line : string) (s : string) : list string :=
  match s with
  | EmptyString => if truthy line then [line] else []
  | String c rest =>
      if is_linebreak c then
        if (code c =? 13)%N then
          match rest with
          | String c' rest' =>
              if (code c' =? 10)%N then line :: splitlines_from EmptyString rest'
              else line :: splitlines_from EmptyString rest
          | EmptyString => line :: splitlines_from EmptyString rest
          end
        else line :: splitlines_from EmptyString rest
      else splitlines_from (line ++ String c EmptyString) rest
  end.

Definition splitlines (s : string) : list string :=
  splitlines_from EmptyString s.

(** [s.split(sep)] for a one-character separator. *)
Fixpoint split_from (sep : ascii) (field : string) (s : string) : list string :=
  match s with
  | EmptyString => [field]
  | String c rest =>
      if Ascii.eqb c sep then field :: split_from sep EmptyString rest
      else split_from sep (field ++ String c EmptyString) rest
  end.

Definition split (sep : ascii) (s : string) : list string :=
  split_from sep EmptyString s.

(** [b[i:j]] for [0 <= i <= j]. *)
Definition slice {A : Type} (b : list A) (i j : nat) : list A :=
  firstn (j - i) (skipn i b).

(** [range(start, stop, step)] for a positive step: the interpreter
    computes the number of elements first and then yields
    [start + k * step]. *)
Definition range_len (start stop step : nat) : nat :=
  if (start <? stop)%nat then ((stop - start - 1) / step + 1)%nat else 0%nat.

Definition range (start stop step : nat) : list nat :=
  map (fun k => (start + k * step)%nat) (seq 0 (range_len start stop step)).

(** [posixpath.dirname]. *)
Fixpoint rstrip_slash_rev (r : list ascii) : list ascii :=
  match r with
  | c :: rest => if Ascii.eqb c "/" then rstrip_slash_rev rest else r
  | [] => []
  end.

(** [head_rev] receives the reversed path: it drops the last component
    and gives the reversed head [p[:p.rfind('/') + 1]]. *)
Fixpoint head_rev (r : list ascii) : list ascii :=
  match r with
  | c :: rest => if Ascii.eqb c "/" then r else head_rev rest
  | [] => []
  end.

Definition dirname (p : string) : string :=
  let h := head_rev (rev (list_ascii_of_string p)) in
  match rstrip_slash_rev h with
  | [] => string_of_list_ascii (rev h)          (* empty, or only slashes *)
  | h' => string_of_list_ascii (rev h')
  end.

End Py.

(* ================================================================== *)
(** * Exceptions, effects and the environment *)
(* ================================================================== *)

(** Where a [ValueError] comes from. *)
Inductive value_error :=
| BadUnpack                       (* for x, v in ...: a row without two fields *)
| BadIntLiteral (text : string)   (* int(text) or int(text, 16) *)
| BadHex.                         (* bytes.fromhex *)

Inductive exception :=
| GdbError (msg : string)
| ValueError (why : value_error)
| IndexError
| OSError (path : string)
| MissingInvoke.   (* GDB's error for a command object without [invoke] *)

(** What a command does to the outside, in order. *)
Inductive event :=
| Execute (cmd : string)                       (* gdb.execute(cmd, to_string=True) *)
| Write (text : string)                        (* gdb.write(text) *)
| Flush                                        (* gdb.flush() *)
| OpenWrite (path : string)                    (* open(path, 'wb') *)
| FileWrite (path : string) (data : list byte).

(** The monitor commands of a log, oldest first. *)
Fixpoint commands (lg : list event) : list string :=
  match lg with
  | [] => []
  | Execute cmd :: rest => cmd :: commands rest
  | _ :: rest => commands rest
  end.

(** The target answers a command with a text that may depend on all the
    commands it received before.  The file system is consulted, never
    re-read after a write, within one command. *)
Record environment := {
  remote : list string -> string -> string;
  path_exists : string -> bool;             (* os.path.exists *)
  path_isdir : string -> bool;              (* os.path.isdir *)
  file_contents : string -> option (list byte);  (* open(p, 'rb').read() *)
  writable : string -> bool                 (* open(p, 'wb') succeeds *)
}.

Definition result (A : Type) : Type := (exception + A)%type.

(** State (the event log) and exceptions. *)
Definition M (A : Type) : Type := list event -> result A * list event.

Definition ret {A} (a : A) : M A := fun lg => (inr a, lg).

Definition raise {A} (e : exception) : M A := fun lg => (inl e, lg).

Definition bind {A B} (m : M A) (f : A -> M B) : M B :=
  fun lg =>
    match m lg with
    | (inl e, lg') => (inl e, lg')
    | (inr a, lg') => f a lg'
    end.

Definition emit (e : event) : M unit := fun lg => (inr tt, (lg ++ [e])%list).

Declare Scope py_scope.
Delimit Scope py_scope with py.
Notation "x <- m ;; k" := (bind m (fun x => k))
  (at level 61, m at next level, right associativity) : py_scope.
Notation "m ;;; k" := (bind m (fun _ => k))
  (at level 61, right associativity) : py_scope.
Local Open Scope py_scope.

(** A whole command, from an empty log. *)
Definition run {A} (m : M A) : result A * list event := m [].

Definition SENTINEL : string := "SNAPSHOT ERR".

Definition CHUNK : nat := 1024.

Arguments CHUNK : simpl never.

(** A catalog is a Python [dict]: keys in insertion order, a key that is
    set again keeps its place and takes the new value. *)
Definition dict := list (string * Z).

Fixpoint dict_set (k : string) (v : Z) (d : dict) : dict :=
  match d with
  | [] => [(k, v)]
  | (k', v') :: rest =>
      if String.eqb k' k then (k', v) :: rest else (k', v') :: dict_set k v rest
  end.

Fixpoint dict_get (k : string) (d : dict) : option Z :=
  match d with
  | [] => None
  | (k', v') :: rest => if String.eqb k' k then Some v' else dict_get k rest
  end.

(** [k in d]. *)
Definition dict_mem (k : string) (d : dict) : bool :=
  match dict_get k d with Some _ => true | None => false end.

(* ================================================================== *)
(** * The script *)
(* ================================================================== *)

Section Script.

Variable env : environment.

Definition gdb_execute (cmd : string) : M string :=
  fun lg => (inr (remote env (commands lg) cmd), (lg ++ [Execute cmd])%list).

Definition gdb_write (text : string) : M unit := emit (Write text).

Definition gdb_flush : M unit := emit Flush.

(** [snapshot_cmd(cmd)] *)
Definition snapshot_cmd (cmd : string) : M string :=
  gdb_execute ("monitor snapshot;" ++ cmd).

(** [[x.split(':') for x in ret_info.splitlines() if x]] *)
Definition info_rows (ret_info : string) : list (list string) :=
  map (Py.split ":") (filter Py.truthy (Py.splitlines ret_info)).

(** [{x: int(v, 16) for x, v in ret_snaps}], row after row into [d]. *)
Fixpoint info_dict (ret_snaps : list (list string)) (d : dict) : result dict :=
  match ret_snaps with
  | [] => inr d
  | row :: rest =>
      match row with
      | [x; v] =>
          match Py.int 16 v with
          | Some n => info_dict rest (dict_set x n d)
          | None => inl (ValueError (BadIntLiteral v))
          end
      | _ => inl (ValueError BadUnpack)
      end
  end.

(** The part of [get_snapshots_info] after the command. *)
Definition parse_info (ret_info : string) : result dict :=
  info_dict (info_rows ret_info) [].

Definition lift {A} (r : result A) : M A :=
  match r with
  | inl e => raise e
  | inr a => ret a
  end.

(** [get_snapshots_info()] *)
Definition get_snapshots_info : M dict :=
  ret_info <- snapshot_cmd "info" ;;
  lift (parse_info ret_info).

(** [int(text)] inside a command. *)
Definition py_int (text : string) : M Z :=
  match Py.int 10 text with
  | Some n => ret n
  | None => raise (ValueError (BadIntLiteral text))
  end.

Definition NL : string := String (ascii_of_N 10) EmptyString.

(** An optional argument: [None] or a string.  [truthy_opt] is its truth
    value, [str_opt] its text in an f-string, [eqb_opt s o] is [s == o]. *)
Definition truthy_opt (o : option string) : bool :=
  match o with Some a => Py.truthy a | None => false end.

Definition str_opt (o : option string) : string :=
  match o with Some a => a | None => "None" end.

Definition eqb_opt (s : string) (o : option string) : bool :=
  match o with Some a => String.eqb s a | None => false end.

(** [SnapshotCreateCommand.invoke], on [gdb.string_to_argv(args)]. *)
Definition SnapshotCreateCommand_invoke (argv : list string) : M unit :=
  let name := match argv with [] => None | a :: _ => Some a end in
  let cmd := if truthy_opt name then "create;name:" ++ str_opt name else "create" in
  ret_name <- snapshot_cmd cmd ;;
  if (truthy_opt name && negb (eqb_opt ret_name name)) || Py.contains SENTINEL ret_name
  then raise (GdbError ("Snapshot creation failed! " ++ ret_name))
  else
    gdb_write ("Created snapshot " ++ ret_name ++ NL) ;;;
    gdb_flush.

(** [SnapshotRestoreCommand.invoke], on [gdb.string_to_argv(args)]. *)
Definition SnapshotRestoreCommand_invoke (argv : list string) : M unit :=
  match argv with
  | [name] =>
      snaps <- get_snapshots_info ;;
      if negb (dict_mem name snaps)
      then raise (GdbError ("Snapshot " ++ name ++ " not found!"))
      else
        let cmd := "restore;name:" ++ name in
        ret_name <- snapshot_cmd cmd ;;
        if negb (String.eqb ret_name name) || Py.contains SENTINEL ret_name
        then raise (GdbError ("Restoring snapshot failed! " ++ ret_name))
        else
          gdb_write ("Restored snapshot " ++ ret_name ++ NL) ;;;
          gdb_flush
  | _ => raise (GdbError "Usage: snapshot restore $snapshot_name")
  end.

(** [argv[i]] *)
Definition index (argv : list string) (i : nat) : M string :=
  match nth_error argv i with
  | Some a => ret a
  | None => raise IndexError
  end.

(** [with open(f_out, 'wb') as fh_out: fh_out.write(bytes.fromhex(snap_data))]:
    the file is opened (and emptied) before the text is decoded. *)
Definition write_hex_file (f_out snap_data : string) : M unit :=
  if negb (writable env f_out) then raise (OSError f_out)
  else
    emit (OpenWrite f_out) ;;;
    match Py.bytes_fromhex snap_data with
    | None => raise (ValueError BadHex)
    | Some blob => emit (FileWrite f_out blob)
    end.

(** [SnapshotSaveCommand.invoke], on [gdb.string_to_argv(args)].  The
    value of [os.path.join] on line 92 is dropped by the script, so the
    directory test has no effect. *)
Definition SnapshotSaveCommand_invoke (argv : list string) : M unit :=
  if (List.length argv =? 0)%nat || (2 <? List.length argv)%nat
  then raise (GdbError "Usage: snapshot save snapshot_name [file path]")
  else
    name <- index argv 0 ;;
    f_out <- (if (List.length argv =? 1)%nat
              then ret ("./" ++ name ++ ".qsp")
              else index argv 2) ;;
    snaps <- get_snapshots_info ;;
    if negb (dict_mem name snaps)
    then raise (GdbError ("Snapshot " ++ name ++ " not found!"))
    else if negb (path_exists env (Py.dirname f_out))
    then raise (GdbError ("Directory " ++ Py.dirname f_out ++ " does not exist!"))
    else
      let _ := path_isdir env f_out in
      let cmd := "save;name:" ++ name in
      snap_data <- snapshot_cmd cmd ;;
      if Py.contains SENTINEL snap_data
      then raise (GdbError "Saving snapshot failed!")
      else
        write_hex_file f_out snap_data ;;;
        gdb_write ("Saved snapshot " ++ name ++ " to " ++ f_out ++ NL) ;;;
        gdb_flush.

(** The command that carries [snap_data[i:i + 1024]] in state [state]. *)
Definition load_chunk_cmd (snap_data : list byte) (i : nat) (state : string) : string :=
  "load;data:" ++ Py.bytes_hex (Py.slice snap_data i (i + CHUNK)) ++ ";state:" ++ state.

(** Lines 121-123: the first chunk. *)
Definition send_start (snap_data : list byte) : M unit :=
  ack <- snapshot_cmd (load_chunk_cmd snap_data 0 "start") ;;
  len_recv <- py_int ack ;;
  if negb (len_recv =? Z.of_nat (List.length (Py.slice snap_data 0 CHUNK)))%Z
  then raise (GdbError ("Error sending snapshot data (State: start, len_recv: "
                        ++ Py.str_of_int len_recv ++ ")!"))
  else ret tt.

(** Lines 129-132: [for i in rng].  The progress bar of [tqdm], when it
    is installed, yields the elements of [rng] unchanged. *)
Fixpoint send_cont (snap_data : list byte) (rng : list nat) : M unit :=
  match rng with
  | [] => ret tt
  | i :: rest =>
      ack <- snapshot_cmd (load_chunk_cmd snap_data i "cont") ;;
      len_recv <- py_int ack ;;
      if negb (len_recv =? Z.of_nat (List.length (Py.slice snap_data i (i + CHUNK))))%Z
      then raise (GdbError "Error sending snapshot data!")
      else send_cont snap_data rest
  end.

(** Lines 134-136. *)
Definition load_done_cmd (argv : list string) : M string :=
  if (List.length argv =? 2)%nat
  then name <- index argv 1 ;; ret ("load;state:done" ++ ";name:" ++ name)
  else ret "load;state:done".

(** Lines 134-143: the last command and its answer. *)
Definition load_finish (argv : list string) (f_in : string) : M unit :=
  cmd <- load_done_cmd argv ;;
  ret_name <- snapshot_cmd cmd ;;
  if Py.contains SENTINEL ret_name
  then raise (GdbError "Saving snapshot failed!")
  else
    gdb_write ("Loaded snapshot " ++ ret_name ++ " from " ++ f_in ++ NL) ;;;
    gdb_flush.

(** Lines 121-143: the transfer of [snap_data], read from [f_in]. *)
Definition load_session (snap_data : list byte) (argv : list string) (f_in : string)
  : M unit :=
  send_start snap_data ;;;
  send_cont snap_data (Py.range CHUNK (List.length snap_data) CHUNK) ;;;
  load_finish argv f_in.

(** [SnapshotLoadCommand.invoke], on [gdb.string_to_argv(args)]. *)
Definition SnapshotLoadCommand_invoke (argv : list string) : M unit :=
  if (List.length argv =? 0)%nat || (2 <? List.length argv)%nat
  then raise (GdbError "Usage: snapshot load file_path [name]")
  else
    f_in <- index argv 0 ;;
    if negb (path_exists env f_in)
    then raise (GdbError ("Snapshot file " ++ f_in ++ " doesn't exist!"))
    else
      match file_contents env f_in with
      | None => raise (OSError f_in)
      | Some snap_data => load_session snap_data argv f_in
      end.

(** [for name in ret_snaps: gdb.write(...)] *)
Fixpoint write_rows (rows : dict) : M unit :=
  match rows with
  | [] => ret tt
  | (name, offset) :: rest =>
      gdb_write (Py.hex offset ++ ": " ++ name ++ NL) ;;;
      write_rows rest
  end.

(** [SnapshotInfoCommand.invoke] *)
Definition SnapshotInfoCommand_invoke (argv : list string) : M unit :=
  ret_snaps <- get_snapshots_info ;;
  gdb_write (NL ++ "Offset (PC): Name" ++ NL) ;;;
  gdb_write ("-----------------" ++ NL) ;;;
  write_rows ret_snaps ;;;
  gdb_write NL ;;;
  gdb_flush.

(** The sub-commands registered by [SnapshotPrefixCommand.__init__]. *)
Inductive subcommand := save | load | info | delete | create | restore.

(** The [invoke] method of each class.  [SnapshotDeleteCommand] consists
    of its docstring ("Delete one of the currently available snapshots")
    and [__init__]: it has no [invoke]. *)
Definition invoke_method (c : subcommand) : option (list string -> M unit) :=
  match c with
  | save => Some SnapshotSaveCommand_invoke
  | load => Some SnapshotLoadCommand_invoke
  | info => Some SnapshotInfoCommand_invoke
  | delete => None
  | create => Some SnapshotCreateCommand_invoke
  | restore => Some SnapshotRestoreCommand_invoke
  end.

(** What GDB does when the user types [snapshot <c> <args>]. *)
Definition gdb_command (c : subcommand) (argv : list string) : M unit :=
  match invoke_method c with
  | Some invoke => invoke argv
  | None => raise MissingInvoke
  end.

End Script.

(* ================================================================== *)
(** * Vocabulary of the statements *)
(* ================================================================== *)

Fixpoint string_forall (P : ascii -> bool) (s : string) : bool :=
  match s with
  | EmptyString => true
  | String c rest => P c && string_forall P rest
  end.

(** The characters that can occur in a text accepted by [int(_, base)]. *)
Definition int_char (base : N) (c : ascii) : bool :=
  Py.is_int_space c || Ascii.eqb c "+" || Ascii.eqb c "-" || Ascii.eqb c "_"
  || Py.is_digit base c || Ascii.eqb c "x" || Ascii.eqb c "X".

Fixpoint count_char (sep : ascii) (s : string) : nat :=
  match s with
  | EmptyString => 0
  | String c rest => (if Ascii.eqb c sep then 1 else 0) + count_char sep rest
  end.

(** The info parser as the specification words it (section 4.3): the
    non-empty lines, each split on the first [:] into a name and an
    offset read in base 16; [None] is the malformed response. *)
Fixpoint split_first (sep : ascii) (s : string) : option (string * string) :=
  match s with
  | EmptyString => None
  | String c rest =>
      if Ascii.eqb c sep then Some (EmptyString, rest)
      else
        match split_first sep rest with
        | Some (a, b) => Some (String c a, b)
        | None => None
        end
  end.

Definition spec_record (line : string) : option (string * Z) :=
  match split_first ":" line with
  | Some (name, offset) =>
      match Py.int 16 offset with
      | Some n => Some (name, n)
      | None => None
      end
  | None => None
  end.

Fixpoint spec_catalog (lines : list string) (d : dict) : option dict :=
  match lines with
  | [] => Some d
  | line :: rest =>
      match spec_record line with
      | Some (name, n) => spec_catalog rest (dict_set name n d)
      | None => None
      end
  end.

Definition info_lines (ret_info : string) : list string :=
  filter Py.truthy (Py.splitlines ret_info).

Definition spec_parse_info (ret_info : string) : option dict :=
  spec_catalog (info_lines ret_info) [].

(** The catalog after one more record. *)
Definition set_record (d : dict) (kv : string * Z) : dict :=
  dict_set (fst kv) (snd kv) d.

Definition ceil_div (n c : nat) : nat := ((n + c - 1) / c)%nat.

Definition INFO : string := "monitor snapshot;info".

(** The monitor commands of the other sub-commands, as [gdb.execute]
    receives them, and the file that [snapshot save name] writes. *)
Definition create_cmd (argv : list string) : string :=
  "monitor snapshot;" ++
  match argv with
  | name :: _ => if Py.truthy name then "create;name:" ++ name else "create"
  | [] => "create"
  end.

Definition restore_cmd (name : string) : string :=
  "monitor snapshot;restore;name:" ++ name.

Definition save_cmd (name : string) : string :=
  "monitor snapshot;save;name:" ++ name.

Definition save_path (name : string) : string := "./" ++ name ++ ".qsp".

(** The data chunks of a load, in the order of the script: the offsets
    [0] and [range(1024, len(snap_data), 1024)], the slices taken there
    and the monitor commands that carry them. *)
Definition chunk_offsets (snap_data : list byte) : list nat :=
  0%nat :: Py.range CHUNK (List.length snap_data) CHUNK.

Definition load_chunks (snap_data : list byte) : list (list byte) :=
  map (fun i => Py.slice snap_data i (i + CHUNK)) (chunk_offsets snap_data).

Definition cont_cmd (snap_data : list byte) (i : nat) : string :=
  "monitor snapshot;" ++ load_chunk_cmd snap_data i "cont".

Definition chunk_cmds (snap_data : list byte) : list string :=
  ("monitor snapshot;" ++ load_chunk_cmd snap_data 0 "start")
    :: map (cont_cmd snap_data) (Py.range CHUNK (List.length snap_data) CHUNK).

(** The answer of the target to chunk [k], the earlier ones being sent. *)
Definition ack (env : environment) (snap_data : list byte) (k : nat) : string :=
  remote env (firstn k (chunk_cmds snap_data)) (nth k (chunk_cmds snap_data) "").

(** Chunk [k] and the number of bytes in it. *)
Definition chunk (snap_data : list byte) (k : nat) : list byte :=
  nth k (load_chunks snap_data) [].

Definition chunk_len (snap_data : list byte) (k : nat) : Z :=
  Z.of_nat (List.length (chunk snap_data k)).

(** Chunk [k] is acknowledged with the number of bytes it carries. *)
Definition ack_ok (env : environment) (snap_data : list byte) (k : nat) : Prop :=
  Py.int 10 (ack env snap_data k) = Some (chunk_len snap_data k).

(** The message of the failure raised when chunk [k] is acknowledged
    with [len_recv] bytes instead of its length. *)
Definition mismatch_msg (k : nat) (len_recv : Z) : string :=
  match k with
  | O => "Error sending snapshot data (State: start, len_recv: "
         ++ Py.str_of_int len_recv ++ ")!"
  | S _ => "Error sending snapshot data!"
  end.

(** The last command of a load. *)
Definition done_cmd (argv : list string) : string :=
  "monitor snapshot;load;state:done" ++
  match argv with
  | [_; name] => ";name:" ++ name
  | _ => ""
  end.

(** Environments for the examples: the target answers the [n]-th command
    with the [n]-th text of a script; every path exists, is a plain file
    holding [data], and can be written. *)
Definition scripted (answers : list string) : list string -> string -> string :=
  fun history _ => nth (List.length history) answers "".

Definition example_env (answers : list string) (data : list byte) : environment :=
  {| remote := scripted answers;
     path_exists := fun _ => true;
     path_isdir := fun _ => false;
     file_contents := fun _ => Some data;
     writable := fun _ => true |}.

(** The info records as the specification words them (sections 3, 4.1
    and 4.3): newline-separated records [name:hex-offset], empty lines
    dropped, exactly one separator on a line, the offset a base-16
    unsigned integer.  None of it is shared with the code. *)
Fixpoint position (c : ascii) (alphabet : string) : option N :=
  match alphabet with
  | EmptyString => None
  | String a rest =>
      if Ascii.eqb c a then Some 0%N else option_map N.succ (position c rest)
  end.

Definition spec_hex_digit (c : ascii) : option N :=
  match position c "0123456789abcdef" with
  | Some d => Some d
  | None => position c "0123456789ABCDEF"
  end.

Fixpoint spec_hex_value (acc : N) (s : string) : option N :=
  match s with
  | EmptyString => Some acc
  | String c rest =>
      match spec_hex_digit c with
      | Some d => spec_hex_value (16 * acc + d) rest
      | None => None
      end
  end.

Definition spec_unsigned_hex (s : string) : option N :=
  match s with
  | EmptyString => None
  | String _ _ => spec_hex_value 0 s
  end.

Definition is_newline (c : ascii) : bool := Ascii.eqb c (ascii_of_N 10).

Fixpoint newline_split (line : string) (s : string) : list string :=
  match s with
  | EmptyString => [line]
  | String c rest =>
      if is_newline c then line :: newline_split EmptyString rest
      else newline_split (line ++ String c EmptyString) rest
  end.

Definition nonempty (s : string) : bool := negb (String.eqb s EmptyString).

Definition strict_record (line : string) : option (string * N) :=
  if (count_char ":" line =? 1)%nat then
    match split_first ":" line with
    | Some (name, offset) =>
        match spec_unsigned_hex offset with
        | Some n => Some (name, n)
        | None => None
        end
    | None => None
    end
  else None.

Fixpoint strict_records (lines : list string) : option (list (string * N)) :=
  match lines with
  | [] => Some []
  | line :: rest =>
      match strict_record line, strict_records rest with
      | Some r, Some rs => Some (r :: rs)
      | _, _ => None
      end
  end.

Definition strict_info (ret_info : string) : option (list (string * N)) :=
  strict_records (filter nonempty (newline_split EmptyString ret_info)).

(** A record as a catalog entry. *)
Definition as_entry (r : string * N) : string * Z := (fst r, Z.of_N (snd r)).

(** The offset on the last record that carries [name]. *)
Fixpoint last_offset (name : string) (records : list (string * N)) : option N :=
  match records with
  | [] => None
  | (k, v) :: rest =>
      match last_offset name rest with
      | Some v' => Some v'
      | None => if String.eqb k name then Some v else None
      end
  end.

(** No line boundary of [str.splitlines] other than the newline. *)
Definition newline_only (s : string) : bool :=
  string_forall (fun c => negb (Py.is_linebreak c) || is_newline c) s.

(** The separator FS (0x1c), a line boundary for [str.splitlines]. *)
Definition FS : string := String (ascii_of_N 28) EmptyString.

(** The data command with a given payload, and the data commands of a
    list of payloads: the first in state [start], the others in state
    [cont]. *)
Definition data_cmd (payload state : string) : string :=
  "monitor snapshot;load;data:" ++ payload ++ ";state:" ++ state.

Definition data_cmds (payloads : list string) : list string :=
  match payloads with
  | [] => []
  | p :: ps => data_cmd p "start" :: map (fun q => data_cmd q "cont") ps
  end.

(** An environment as [example_env] whose file system answers the same
    for every path: it exists (and can be written) or not, and reading
    it gives [contents]. *)
Definition example_env_fs (answers : list string) (present : bool)
                          (contents : option (list byte)) : environment :=
  {| remote := scripted answers;
     path_exists := fun _ => present;
     path_isdir := fun _ => false;
     file_contents := fun _ => contents;
     writable := fun _ => present |}.

(** ** Vocabulary of the further properties *)

(** Strings put end to end. *)
Definition join (parts : list string) : string :=
  fold_right String.append EmptyString parts.

(** The number written by a list of hexadecimal digits, most significant
    first, after the digits already read as [acc]. *)
Fixpoint hex_uint_value (d : Hexadecimal.uint) (acc : N) : N :=
  match d with
  | Hexadecimal.Nil => acc
  | Hexadecimal.D0 l => hex_uint_value l (16 * acc)
  | Hexadecimal.D1 l => hex_uint_value l (16 * acc + 1)
  | Hexadecimal.D2 l => hex_uint_value l (16 * acc + 2)
  | Hexadecimal.D3 l => hex_uint_value l (16 * acc + 3)
  | Hexadecimal.D4 l => hex_uint_value l (16 * acc + 4)
  | Hexadecimal.D5 l => hex_uint_value l (16 * acc + 5)
  | Hexadecimal.D6 l => hex_uint_value l (16 * acc + 6)
  | Hexadecimal.D7 l => hex_uint_value l (16 * acc + 7)
  | Hexadecimal.D8 l => hex_uint_value l (16 * acc + 8)
  | Hexadecimal.D9 l => hex_uint_value l (16 * acc + 9)
  | Hexadecimal.Da l => hex_uint_value l (16 * acc + 10)
  | Hexadecimal.Db l => hex_uint_value l (16 * acc + 11)
  | Hexadecimal.Dc l => hex_uint_value l (16 * acc + 12)
  | Hexadecimal.Dd l => hex_uint_value l (16 * acc + 13)
  | Hexadecimal.De l => hex_uint_value l (16 * acc + 14)
  | Hexadecimal.Df l => hex_uint_value l (16 * acc + 15)
  end%N.

(** The line that [snapshot info] prints for one catalog entry. *)
Definition info_row (entry : string * Z) : event :=
  Write (Py.hex (snd entry) ++ ": " ++ fst entry ++ NL).

(** What [snapshot load] prints at the end. *)
Definition loaded_msg (ret_name f_in : string) : event :=
  Write ("Loaded snapshot " ++ ret_name ++ " from " ++ f_in ++ NL).



(* ================================================================== *)
(** * Facts about the built-ins *)
(* ================================================================== *)

Lemma string_forall_lstrip P s :
  (forall c, Py.is_int_space c = true -> P c = true) ->
  string_forall P (Py.lstrip s) = true -> string_forall P s = true.
Proof.
  intros HP. induction s as [|c s IH]; simpl; auto.
  destruct (Py.is_int_space c) eqn:E; auto.
  intros H. rewrite (HP c E). simpl. auto.
Qed.

Lemma lstrip_empty_spaces s :
  Py.lstrip s = EmptyString -> string_forall Py.is_int_space s = true.
Proof.
  induction s as [|c s IH]; simpl; auto.
  destruct (Py.is_int_space c) eqn:E; simpl; auto. discriminate.
Qed.

Lemma string_forall_weaken (P Q : ascii -> bool) s :
  (forall c, P c = true -> Q c = true) ->
  string_forall P s = true -> string_forall Q s = true.
Proof.
  intros HPQ. induction s as [|c s IH]; simpl; auto.
  intros H. apply andb_true_iff in H. destruct H as [H1 H2].
  rewrite (HPQ c H1). simpl. auto.
Qed.

Lemma int_char_space base c : Py.is_int_space c = true -> int_char base c = true.
Proof. intros H. unfold int_char. rewrite H. reflexivity. Qed.

Lemma int_char_digit base c : Py.is_digit base c = true -> int_char base c = true.
Proof. intros H. unfold int_char. rewrite H. rewrite !orb_true_r. reflexivity. Qed.

Lemma int_char_eqb base c (a : ascii) :
  int_char base a = true -> Ascii.eqb c a = true -> int_char base c = true.
Proof. intros H E. apply Ascii.eqb_eq in E. subst. exact H. Qed.

Lemma scan_digits_chars base s : forall prev acc k n k' rest,
  Py.scan_digits base prev acc k s = Some (n, k', rest) ->
  string_forall (int_char base) rest = true ->
  string_forall (int_char base) s = true.
Proof.
  induction s as [|c s IH]; intros prev acc k n k' rest H Hrest; simpl in H.
  - destruct prev; inversion H; subst; exact Hrest.
  - destruct (Ascii.eqb c "_") eqn:Eus.
    + destruct prev; [discriminate|].
      simpl. rewrite (int_char_eqb base c "_" eq_refl Eus). simpl. eauto.
    + destruct (Py.digit_value c) as [d|] eqn:Ed.
      * destruct (d <? base)%N eqn:Elt.
        -- simpl. rewrite int_char_digit; [simpl; eauto|].
           unfold Py.is_digit. rewrite Ed. exact Elt.
        -- destruct prev; inversion H; subst; exact Hrest.
      * destruct prev; inversion H; subst; exact Hrest.
Qed.

Lemma parse_digits_chars base s n k rest :
  Py.parse_digits base s = Some (n, k, rest) ->
  string_forall (int_char base) rest = true ->
  string_forall (int_char base) s = true.
Proof.
  destruct s as [|c s]; simpl; [discriminate|].
  destruct (Py.digit_value c) as [d|] eqn:Ed; [|discriminate].
  destruct (d <? base)%N eqn:Elt; [|discriminate].
  intros H Hrest. rewrite int_char_digit.
  - simpl. eapply scan_digits_chars; eauto.
  - unfold Py.is_digit. rewrite Ed. exact Elt.
Qed.

Lemma skip_prefix_chars base s :
  string_forall (int_char base) (Py.skip_prefix base s) = true ->
  string_forall (int_char base) s = true.
Proof.
  unfold Py.skip_prefix. destruct (base =? 16)%N eqn:Eb; auto.
  apply N.eqb_eq in Eb. subst base.
  destruct s as [|c0 [|c1 rest]]; auto.
  destruct (Ascii.eqb c0 "0") eqn:E0; simpl andb; auto.
  destruct (Ascii.eqb c1 "x" || Ascii.eqb c1 "X") eqn:E1; auto.
  assert (H0 : int_char 16 c0 = true).
  { apply Ascii.eqb_eq in E0. subst c0. reflexivity. }
  assert (H1 : int_char 16 c1 = true).
  { unfold int_char. apply orb_true_iff in E1. destruct E1 as [E|E]; rewrite E;
      rewrite ?orb_true_r; reflexivity. }
  intros H. cbn [string_forall]. rewrite H0, H1. simpl andb.
  destruct rest as [|c2 rest']; auto.
  destruct (Ascii.eqb c2 "_") eqn:E2; auto.
  cbn [string_forall]. rewrite (int_char_eqb 16 c2 "_" eq_refl E2). exact H.
Qed.

Lemma split_sign_chars base s :
  string_forall (int_char base) (snd (Py.split_sign s)) = true ->
  string_forall (int_char base) s = true.
Proof.
  unfold Py.split_sign. destruct s as [|c rest]; auto.
  destruct (Ascii.eqb c "+") eqn:Ep.
  { simpl. intros H. rewrite (int_char_eqb base c "+" eq_refl Ep). exact H. }
  destruct (Ascii.eqb c "-") eqn:Em; auto.
  simpl. intros H. rewrite (int_char_eqb base c "-" eq_refl Em). exact H.
Qed.

(** A text accepted by [int] consists of blanks, a sign, digits of the
    base, underscores and the letter of the prefix. *)
Lemma int_chars base s z :
  Py.int base s = Some z -> string_forall (int_char base) s = true.
Proof.
  unfold Py.int. intros H.
  apply string_forall_lstrip; [apply int_char_space|].
  apply split_sign_chars.
  destruct (Py.split_sign (Py.lstrip s)) as [neg body]. simpl.
  apply skip_prefix_chars.
  destruct (Py.parse_digits base (Py.skip_prefix base body)) as [[[n k] rest]|] eqn:Ep;
    [|discriminate].
  eapply parse_digits_chars; [exact Ep|].
  destruct (negb (Py.power_of_two base) && (Py.MAX_STR_DIGITS <? k)%N); [discriminate|].
  destruct (Py.lstrip rest) eqn:El; [|discriminate].
  eapply string_forall_weaken; [apply int_char_space|].
  apply lstrip_empty_spaces. exact El.
Qed.

Lemma prefix_head a sub c s :
  String.prefix (String a sub) (String c s) = true -> a = c.
Proof. simpl. destruct (ascii_dec a c); [auto|discriminate]. Qed.

Lemma contains_head P a sub s :
  Py.contains (String a sub) s = true -> string_forall P s = true -> P a = true.
Proof.
  induction s as [|c s IH]; intros H HP.
  - simpl in H. discriminate.
  - cbn [string_forall] in HP. apply andb_true_iff in HP. destruct HP as [Hc Hs].
    cbn [Py.contains] in H. apply orb_true_iff in H. destruct H as [H|H].
    + apply prefix_head in H. subst. exact Hc.
    + auto.
Qed.

(** A text with the sentinel in it is not a decimal integer. *)
Lemma int_sentinel r :
  Py.contains SENTINEL r = true -> Py.int 10 r = None.
Proof.
  intros H. destruct (Py.int 10 r) as [z|] eqn:E; [|reflexivity].
  apply int_chars in E.
  pose proof (contains_head (int_char 10) "S" "NAPSHOT ERR" r H E) as HS.
  vm_compute in HS. discriminate.
Qed.

Lemma split_first_has_sep P sep s a b :
  split_first sep s = Some (a, b) -> string_forall P s = true -> P sep = true.
Proof.
  revert a b. induction s as [|c s IH]; intros a b H HP; simpl in H; [discriminate|].
  cbn [string_forall] in HP. apply andb_true_iff in HP. destruct HP as [Hc Hs].
  destruct (Ascii.eqb c sep) eqn:E.
  - apply Ascii.eqb_eq in E. subst. exact Hc.
  - destruct (split_first sep s) as [[a' b']|]; [eauto|discriminate].
Qed.

(** A text with a colon in it is not a base-16 integer. *)
Lemma int16_colon v a b :
  split_first ":" v = Some (a, b) -> Py.int 16 v = None.
Proof.
  intros H. destruct (Py.int 16 v) as [z|] eqn:E; [|reflexivity].
  apply int_chars in E.
  pose proof (split_first_has_sep (int_char 16) ":" v a b H E) as HS.
  vm_compute in HS. discriminate.
Qed.

Lemma append_char_assoc (f : string) c (a : string) :
  (f ++ String c EmptyString) ++ a = f ++ String c a.
Proof. induction f as [|x f IH]; simpl; [reflexivity|]. now rewrite IH. Qed.

Lemma append_empty_r (f : string) : f ++ EmptyString = f.
Proof. induction f as [|x f IH]; simpl; [reflexivity|]. now rewrite IH. Qed.

(** [split] cuts at the first separator and goes on with the rest. *)
Lemma split_from_first sep s : forall field,
  Py.split_from sep field s =
  match split_first sep s with
  | None => [field ++ s]
  | Some (a, b) => (field ++ a) :: Py.split_from sep EmptyString b
  end.
Proof.
  induction s as [|c s IH]; intros field; simpl.
  - now rewrite append_empty_r.
  - destruct (Ascii.eqb c sep) eqn:E.
    + now rewrite append_empty_r.
    + rewrite IH. destruct (split_first sep s) as [[a b]|];
        now rewrite append_char_assoc.
Qed.

Lemma length_split_from sep s : forall field,
  List.length (Py.split_from sep field s) = S (count_char sep s).
Proof.
  induction s as [|c s IH]; intros field; simpl; [reflexivity|].
  destruct (Ascii.eqb c sep); simpl; now rewrite IH.
Qed.

Lemma count_char_first sep s :
  count_char sep s =
  match split_first sep s with
  | None => 0%nat
  | Some (_, b) => S (count_char sep b)
  end.
Proof.
  induction s as [|c s IH]; simpl; [reflexivity|].
  destruct (Ascii.eqb c sep); [reflexivity|].
  rewrite IH. destruct (split_first sep s) as [[a b]|]; reflexivity.
Qed.

(** One row of the dictionary comprehension against one record of the
    specification. *)
Lemma info_row_refines line rest d :
  match spec_record line with
  | Some (name, n) =>
      info_dict (Py.split ":" line :: rest) d = info_dict rest (dict_set name n d)
  | None =>
      exists why, info_dict (Py.split ":" line :: rest) d = inl (ValueError why)
  end.
Proof.
  unfold spec_record, Py.split. rewrite split_from_first.
  destruct (split_first ":" line) as [[a b]|] eqn:E1.
  - rewrite split_from_first. simpl append.
    destruct (split_first ":" b) as [[a' b']|] eqn:E2.
    + rewrite (int16_colon b a' b' E2).
      pose proof (length_split_from ":" b' EmptyString) as HL.
      destruct (Py.split_from ":" EmptyString b') as [|x l]; [discriminate|].
      simpl. eauto.
    + simpl. destruct (Py.int 16 b) as [n|]; eauto.
  - simpl. eauto.
Qed.

Lemma info_dict_refines lines : forall d,
  match spec_catalog lines d with
  | Some d' => info_dict (map (Py.split ":") lines) d = inr d'
  | None => exists why, info_dict (map (Py.split ":") lines) d = inl (ValueError why)
  end.
Proof.
  induction lines as [|line lines IH]; intros d; [reflexivity|].
  cbn [spec_catalog map].
  pose proof (info_row_refines line (map (Py.split ":") lines) d) as Hrow.
  destruct (spec_record line) as [[name n]|].
  - rewrite Hrow. apply IH.
  - exact Hrow.
Qed.

(** [parse_info] computes the parser of the specification; a malformed
    response is a [ValueError]. *)
Lemma parse_info_refines ret_info :
  match spec_parse_info ret_info with
  | Some d => parse_info ret_info = inr d
  | None => exists why, parse_info ret_info = inl (ValueError why)
  end.
Proof. unfold spec_parse_info, parse_info, info_rows. apply info_dict_refines. Qed.

Lemma spec_catalog_bad_line line lines : forall d,
  In line lines -> spec_record line = None -> spec_catalog lines d = None.
Proof.
  induction lines as [|l lines IH]; intros d Hin Hbad; [contradiction|].
  simpl. destruct Hin as [->|Hin].
  - now rewrite Hbad.
  - destruct (spec_record l) as [[name n]|]; [apply IH; assumption|reflexivity].
Qed.

(** A line without exactly one colon is not a record. *)
Lemma spec_record_count line :
  count_char ":" line <> 1%nat -> spec_record line = None.
Proof.
  unfold spec_record. rewrite count_char_first.
  destruct (split_first ":" line) as [[a b]|]; [|reflexivity].
  rewrite (count_char_first ":" b).
  destruct (split_first ":" b) as [[a' b']|] eqn:E.
  - intros _. now rewrite (int16_colon b a' b' E).
  - intros H. exfalso. apply H. reflexivity.
Qed.

(** ** The dictionary *)

Lemma dict_get_set k k' v d :
  dict_get k (dict_set k' v d) = if String.eqb k' k then Some v else dict_get k d.
Proof.
  induction d as [|[k0 v0] d IH]; simpl.
  - reflexivity.
  - destruct (String.eqb k0 k') eqn:E0; simpl.
    + apply String.eqb_eq in E0. subst k0. destruct (String.eqb k' k); reflexivity.
    + rewrite IH. destruct (String.eqb k0 k) eqn:E1; [|reflexivity].
      apply String.eqb_eq in E1. subst k0.
      rewrite String.eqb_sym in E0. now rewrite E0.
Qed.

Lemma dict_set_keys k v d :
  map fst (dict_set k v d) =
  if dict_mem k d then map fst d else (map fst d ++ [k])%list.
Proof.
  unfold dict_mem. induction d as [|[k0 v0] d IH]; simpl; [reflexivity|].
  destruct (String.eqb k0 k) eqn:E; simpl; [reflexivity|].
  rewrite IH. destruct (dict_get k d); reflexivity.
Qed.

Lemma dict_get_in k d : dict_get k d = None -> ~ In k (map fst d).
Proof.
  induction d as [|[k0 v0] d IH]; simpl; [auto|].
  destruct (String.eqb k0 k) eqn:E; [discriminate|].
  intros H [H0|H0]; [|now apply IH].
  subst. rewrite String.eqb_refl in E. discriminate.
Qed.

Lemma dict_set_nodup k v d : NoDup (map fst d) -> NoDup (map fst (dict_set k v d)).
Proof.
  intros H. rewrite dict_set_keys. unfold dict_mem.
  destruct (dict_get k d) eqn:E; [exact H|].
  apply NoDup_app; [exact H| |].
  - constructor; [intros []|constructor].
  - intros x Hx [Hk|[]]. subst x. now apply (dict_get_in k d E).
Qed.

Lemma spec_catalog_records lines : forall records d,
  map spec_record lines = map Some records ->
  spec_catalog lines d = Some (fold_left set_record records d).
Proof.
  induction lines as [|line lines IH]; intros [|[k v] records] d H;
    try discriminate; [reflexivity|].
  simpl in H. injection H as H1 H2. simpl. rewrite H1. now apply IH.
Qed.

Lemma dict_get_app k d1 d2 :
  dict_get k (d1 ++ d2)%list =
  match dict_get k d1 with
  | Some v => Some v
  | None => dict_get k d2
  end.
Proof.
  induction d1 as [|[k0 v0] d1 IH]; simpl; [reflexivity|].
  destruct (String.eqb k0 k); [reflexivity|exact IH].
Qed.

Lemma fold_set_get name records : forall d,
  dict_get name (fold_left set_record records d) =
  match dict_get name (rev records) with
  | Some v => Some v
  | None => dict_get name d
  end.
Proof.
  induction records as [|[k v] records IH]; intros d; [reflexivity|].
  cbn [fold_left rev]. rewrite IH, dict_get_app. unfold set_record.
  cbn [fst snd]. rewrite dict_get_set.
  destruct (dict_get name (rev records)); [reflexivity|].
  simpl. destruct (String.eqb k name); reflexivity.
Qed.

Lemma fold_set_nodup records : forall d,
  NoDup (map fst d) -> NoDup (map fst (fold_left set_record records d)).
Proof.
  induction records as [|[k v] records IH]; intros d H; [exact H|].
  simpl. apply IH. now apply dict_set_nodup.
Qed.

(** ** The monad *)

Lemma commands_app lg1 lg2 :
  commands (lg1 ++ lg2)%list = (commands lg1 ++ commands lg2)%list.
Proof.
  induction lg1 as [|e lg1 IH]; simpl; [reflexivity|].
  destruct e; simpl; now rewrite IH.
Qed.

Lemma commands_executes cmds : commands (map Execute cmds) = cmds.
Proof. induction cmds as [|c cmds IH]; simpl; [reflexivity|]. now rewrite IH. Qed.

Lemma get_snapshots_info_at env lg :
  get_snapshots_info env lg =
  (parse_info (remote env (commands lg) INFO), (lg ++ [Execute INFO])%list).
Proof.
  unfold get_snapshots_info, bind, snapshot_cmd, gdb_execute, lift. simpl.
  fold INFO. destruct (parse_info (remote env (commands lg) INFO)); reflexivity.
Qed.

(** ** One step of the transfer *)

Lemma send_start_at env data lg :
  send_start env data lg =
  let cmd := nth 0 (chunk_cmds data) "" in
  let r := remote env (commands lg) cmd in
  match Py.int 10 r with
  | None => (inl (ValueError (BadIntLiteral r)), (lg ++ [Execute cmd])%list)
  | Some n =>
      if (n =? chunk_len data 0)%Z then (inr tt, (lg ++ [Execute cmd])%list)
      else (inl (GdbError (mismatch_msg 0 n)), (lg ++ [Execute cmd])%list)
  end.
Proof.
  unfold send_start, bind, snapshot_cmd, gdb_execute, py_int, chunk_len, chunk.
  unfold load_chunks. cbn [nth map chunk_cmds chunk_offsets mismatch_msg Nat.add].
  destruct (Py.int 10 _) as [n|]; [|reflexivity].
  unfold ret. destruct (n =? _)%Z; reflexivity.
Qed.

Lemma send_cont_cons env data i rest lg :
  send_cont env data (i :: rest) lg =
  let cmd := cont_cmd data i in
  let r := remote env (commands lg) cmd in
  match Py.int 10 r with
  | None => (inl (ValueError (BadIntLiteral r)), (lg ++ [Execute cmd])%list)
  | Some n =>
      if (n =? Z.of_nat (List.length (Py.slice data i (i + CHUNK))))%Z
      then send_cont env data rest (lg ++ [Execute cmd])%list
      else (inl (GdbError (mismatch_msg 1 n)), (lg ++ [Execute cmd])%list)
  end.
Proof.
  cbn [send_cont]. unfold bind, snapshot_cmd, gdb_execute, py_int, cont_cmd.
  cbn [mismatch_msg].
  destruct (Py.int 10 _) as [n|]; [|reflexivity].
  unfold ret. destruct (n =? _)%Z; reflexivity.
Qed.

(** While the acknowledgements are right the loop goes on: after [k]
    rounds, [k] more commands are in the log and the rest of the range
    is still to be sent. *)
Lemma send_cont_prefix env data : forall rng k lg,
  (k <= List.length rng)%nat ->
  (forall j, (j < k)%nat ->
     Py.int 10 (remote env (commands lg ++ firstn j (map (cont_cmd data) rng))%list
                       (nth j (map (cont_cmd data) rng) ""))
     = Some (Z.of_nat (List.length
               (Py.slice data (nth j rng 0%nat) (nth j rng 0%nat + CHUNK))))) ->
  send_cont env data rng lg =
  send_cont env data (skipn k rng)
            (lg ++ map Execute (firstn k (map (cont_cmd data) rng)))%list.
Proof.
  induction rng as [|i rng IH]; intros k lg Hk Hack.
  - destruct k; simpl; now rewrite app_nil_r.
  - destruct k as [|k].
    + simpl. now rewrite app_nil_r.
    + rewrite send_cont_cons. cbv zeta.
      pose proof (Hack 0%nat (Nat.lt_0_succ k)) as H0.
      cbn [firstn nth map] in H0. rewrite app_nil_r in H0. rewrite H0.
      rewrite Z.eqb_refl.
      rewrite (IH k (lg ++ [Execute (cont_cmd data i)])%list).
      * cbn [skipn firstn map]. now rewrite <- app_assoc.
      * simpl in Hk. lia.
      * intros j Hj. specialize (Hack (S j) (proj1 (Nat.succ_lt_mono j k) Hj)).
        cbn [firstn nth map] in Hack.
        rewrite commands_app. cbn [commands]. rewrite <- app_assoc. exact Hack.
Qed.

Lemma skipn_nth {A} (d : A) : forall k (l : list A),
  (k < List.length l)%nat -> skipn k l = nth k l d :: skipn (S k) l.
Proof.
  induction k as [|k IH]; intros [|x l] H; simpl in H; try lia; [reflexivity|].
  cbn [skipn nth]. rewrite (IH l) by lia. reflexivity.
Qed.

Lemma firstn_snoc {A} (d : A) : forall k (l : list A),
  (k < List.length l)%nat -> firstn (S k) l = (firstn k l ++ [nth k l d])%list.
Proof.
  induction k as [|k IH]; intros [|x l] H; simpl in H; try lia; [reflexivity|].
  cbn [firstn nth app]. f_equal. rewrite <- (IH l) by lia. reflexivity.
Qed.

Lemma load_finish_at env argv f_in lg :
  load_finish env argv f_in lg =
  let r := remote env (commands lg) (done_cmd argv) in
  if Py.contains SENTINEL r
  then (inl (GdbError "Saving snapshot failed!"), (lg ++ [Execute (done_cmd argv)])%list)
  else (inr tt,
        (lg ++ [Execute (done_cmd argv);
                Write ("Loaded snapshot " ++ r ++ " from " ++ f_in ++ NL);
                Flush])%list).
Proof.
  assert (Hcmd : load_done_cmd argv lg =
                 (inr (match argv with
                       | [_; name] => "load;state:done" ++ ";name:" ++ name
                       | _ => "load;state:done"
                       end), lg)).
  { destruct argv as [|a [|b [|c l]]]; reflexivity. }
  unfold load_finish, bind. rewrite Hcmd.
  unfold snapshot_cmd, gdb_execute, gdb_write, gdb_flush, emit, raise, done_cmd.
  cbv zeta.
  destruct argv as [|a [|b [|c l]]]; cbn [append];
    destruct (Py.contains SENTINEL _); rewrite <- ?app_assoc; reflexivity.
Qed.

(** The first chunk and [k] rounds of the loop, all acknowledged. *)
Lemma transfer_prefix env data argv f_in k :
  (S k <= List.length (chunk_cmds data))%nat ->
  (forall j, (j < S k)%nat -> ack_ok env data j) ->
  load_session env data argv f_in [] =
  bind (send_cont env data (skipn k (Py.range CHUNK (List.length data) CHUNK)))
       (fun _ => load_finish env argv f_in)
       (map Execute (firstn (S k) (chunk_cmds data))).
Proof.
  intros Hk Hack.
  assert (Hk' : (k <= List.length (Py.range CHUNK (List.length data) CHUNK))%nat).
  { unfold chunk_cmds in Hk. cbn [List.length] in Hk. rewrite length_map in Hk. lia. }
  unfold load_session, bind at 1.
  rewrite send_start_at. cbv zeta.
  pose proof (Hack 0%nat (Nat.lt_0_succ k)) as H0. unfold ack_ok, ack in H0.
  cbn [firstn] in H0. cbn [commands]. rewrite H0, Z.eqb_refl.
  unfold bind.
  rewrite (send_cont_prefix env data _ k).
  - reflexivity.
  - exact Hk'.
  - intros j Hj. specialize (Hack (S j) (proj1 (Nat.succ_lt_mono j k) Hj)).
    unfold ack_ok, ack, chunk_len, chunk, load_chunks, chunk_offsets in Hack.
    cbn [nth map firstn] in Hack.
    rewrite (nth_indep _ [] (Py.slice data 0 (0 + CHUNK))) in Hack
      by (rewrite length_map; lia).
    rewrite (map_nth (fun i => Py.slice data i (i + CHUNK))) in Hack.
    exact Hack.
Qed.

Lemma load_session_complete env data argv f_in :
  (forall j, (j < List.length (chunk_cmds data))%nat -> ack_ok env data j) ->
  load_session env data argv f_in [] =
  load_finish env argv f_in (map Execute (chunk_cmds data)).
Proof.
  intros Hack.
  set (rng := Py.range CHUNK (List.length data) CHUNK).
  assert (Hlen : List.length (chunk_cmds data) = S (List.length rng)).
  { unfold chunk_cmds. cbn [List.length]. now rewrite length_map. }
  rewrite (transfer_prefix env data argv f_in (List.length rng)).
  - fold rng. rewrite skipn_all. rewrite <- Hlen, firstn_all. reflexivity.
  - lia.
  - intros j Hj. apply Hack. lia.
Qed.

(** The outcome at the first chunk that is not acknowledged as sent. *)
Lemma load_session_stops env data argv f_in k :
  (k < List.length (chunk_cmds data))%nat ->
  (forall j, (j < k)%nat -> ack_ok env data j) ->
  ~ ack_ok env data k ->
  load_session env data argv f_in [] =
  (match Py.int 10 (ack env data k) with
   | None => inl (ValueError (BadIntLiteral (ack env data k)))
   | Some n => inl (GdbError (mismatch_msg k n))
   end,
   map Execute (firstn (S k) (chunk_cmds data))).
Proof.
  intros Hk Hack Hbad. unfold ack_ok in Hbad.
  destruct k as [|k].
  - unfold load_session, bind. rewrite send_start_at. cbv zeta.
    unfold ack in Hbad |- *. cbn [firstn commands] in *.
    destruct (chunk_cmds data) as [|c0 cs] eqn:Ec; [discriminate|].
    cbn [nth firstn map app] in *.
    destruct (Py.int 10 (remote env [] c0)) as [n|]; [|reflexivity].
    destruct (n =? chunk_len data 0)%Z eqn:En; [|reflexivity].
    apply Z.eqb_eq in En. subst n. now contradiction Hbad.
  - set (rng := Py.range CHUNK (List.length data) CHUNK) in *.
    assert (Hlen : List.length (chunk_cmds data) = S (List.length rng)).
    { unfold chunk_cmds. cbn [List.length]. now rewrite length_map. }
    rewrite (transfer_prefix env data argv f_in k); [|lia|exact Hack].
    fold rng. rewrite (skipn_nth 0%nat k rng) by lia.
    unfold bind. rewrite send_cont_cons. cbv zeta.
    rewrite commands_executes.
    rewrite (firstn_snoc "" (S k) (chunk_cmds data)) by lia.
    assert (Hcmd : nth (S k) (chunk_cmds data) "" = cont_cmd data (nth k rng 0%nat)).
    { unfold chunk_cmds. cbn [nth]. fold rng.
      rewrite (nth_indep _ "" (cont_cmd data 0%nat)) by (rewrite length_map; lia).
      apply map_nth. }
    unfold ack in Hbad |- *. rewrite Hcmd in *.
    rewrite map_app. cbn [map].
    unfold chunk_len, chunk, load_chunks, chunk_offsets in Hbad.
    cbn [nth map] in Hbad. fold rng in Hbad.
    rewrite (nth_indep _ [] (Py.slice data 0 (0 + CHUNK))) in Hbad
      by (rewrite length_map; lia).
    rewrite (map_nth (fun i => Py.slice data i (i + CHUNK))) in Hbad.
    destruct (Py.int 10 _) as [n|]; [|reflexivity].
    destruct (n =? _)%Z eqn:En; [|reflexivity].
    apply Z.eqb_eq in En. subst n. now contradiction Hbad.
Qed.

(** ** Ranges and slices, for any positive chunk size *)

Section Chunking.

Variable c : nat.
Hypothesis c_pos : (0 < c)%nat.

Lemma range_len_ceil n :
  S (Py.range_len c n c) = Nat.max 1 (ceil_div n c).
Proof.
  unfold Py.range_len, ceil_div.
  destruct (c <? n)%nat eqn:E.
  - apply Nat.ltb_lt in E.
    pose proof (Nat.div_mod_eq (n - c - 1) c) as Hd.
    pose proof (Nat.mod_upper_bound (n - c - 1) c ltac:(lia)) as Hm.
    rewrite <- (Nat.div_unique (n + c - 1) c ((n - c - 1) / c + 2) ((n - c - 1) mod c));
      [lia|exact Hm|].
    set (q := ((n - c - 1) / c)%nat) in *. set (r := ((n - c - 1) mod c)%nat) in *.
    nia.
  - apply Nat.ltb_ge in E.
    destruct (Nat.eq_dec n 0) as [->|Hn].
    + rewrite Nat.div_small by lia. reflexivity.
    + rewrite <- (Nat.div_unique (n + c - 1) c 1 (n - 1)); lia.
Qed.

(** The offsets of the chunks are the multiples of the chunk size. *)
Lemma offsets_multiples n :
  (0 :: Py.range c n c)%list = map (fun k => (k * c)%nat) (seq 0 (S (Py.range_len c n c))).
Proof.
  unfold Py.range. cbn [seq map]. f_equal.
  rewrite <- seq_shift, map_map. reflexivity.
Qed.

Lemma firstn_add {A} : forall a b (l : list A),
  firstn (a + b) l = (firstn a l ++ firstn b (skipn a l))%list.
Proof.
  induction a as [|a IH]; intros b [|x l]; simpl; try reflexivity.
  - now rewrite firstn_nil.
  - now rewrite IH.
Qed.

Lemma slice_chunk {A} (l : list A) i : Py.slice l i (i + c) = firstn c (skipn i l).
Proof. unfold Py.slice. now replace (i + c - i)%nat with c by lia. Qed.

Lemma length_slice_chunk {A} (l : list A) i :
  List.length (Py.slice l i (i + c)) = Nat.min c (List.length l - i).
Proof. rewrite slice_chunk, length_firstn, length_skipn. reflexivity. Qed.

(** Consecutive slices put end to end give back a prefix. *)
Lemma concat_slices {A} (l : list A) m :
  List.concat (map (fun k => Py.slice l (k * c) (k * c + c)) (seq 0 m)) = firstn (m * c) l.
Proof.
  induction m as [|m IH]; [reflexivity|].
  rewrite seq_S, map_app, concat_app, IH. cbn [map List.concat Nat.add].
  rewrite app_nil_r, slice_chunk.
  replace (S m * c)%nat with (m * c + c)%nat by lia.
  now rewrite firstn_add.
Qed.

Lemma chunks_cover n : (n <= S (Py.range_len c n c) * c)%nat.
Proof.
  unfold Py.range_len. destruct (c <? n)%nat eqn:E.
  - apply Nat.ltb_lt in E.
    pose proof (Nat.div_mod_eq (n - c - 1) c) as Hd.
    pose proof (Nat.mod_upper_bound (n - c - 1) c ltac:(lia)) as Hm.
    set (q := ((n - c - 1) / c)%nat) in *. set (r := ((n - c - 1) mod c)%nat) in *.
    nia.
  - apply Nat.ltb_ge in E. lia.
Qed.

(** Where the last chunk starts, and how long it is. *)
Lemma last_chunk_length n :
  Nat.min c (n - Py.range_len c n c * c) =
  if (n =? 0)%nat then 0%nat
  else if (n mod c =? 0)%nat then c else (n mod c)%nat.
Proof.
  destruct (n =? 0)%nat eqn:E0.
  { apply Nat.eqb_eq in E0. subst n. lia. }
  apply Nat.eqb_neq in E0.
  pose proof (Nat.div_mod_eq n c) as Hd.
  pose proof (Nat.mod_upper_bound n c ltac:(lia)) as Hm.
  unfold Py.range_len. destruct (c <? n)%nat eqn:E.
  - apply Nat.ltb_lt in E.
    pose proof (Nat.div_mod_eq (n - c - 1) c) as Hd'.
    pose proof (Nat.mod_upper_bound (n - c - 1) c ltac:(lia)) as Hm'.
    set (q := (n / c)%nat) in *. set (r := (n mod c)%nat) in *.
    set (q' := ((n - c - 1) / c)%nat) in *. set (r' := ((n - c - 1) mod c)%nat) in *.
    destruct (r =? 0)%nat eqn:Er.
    + apply Nat.eqb_eq in Er.
      assert (q = q' + 2)%nat by nia. nia.
    + apply Nat.eqb_neq in Er.
      assert (q = q' + 1)%nat by nia. nia.
  - apply Nat.ltb_ge in E.
    set (q := (n / c)%nat) in *. set (r := (n mod c)%nat) in *.
    destruct (r =? 0)%nat eqn:Er.
    + apply Nat.eqb_eq in Er. assert (q = 1)%nat by nia. nia.
    + apply Nat.eqb_neq in Er. assert (q = 0)%nat by nia. nia.
Qed.

End Chunking.

Lemma CHUNK_pos : (0 < CHUNK)%nat.
Proof. unfold CHUNK. lia. Qed.

(** ** The chunks of a load *)

Lemma length_chunk_cmds data :
  List.length (chunk_cmds data) = S (Py.range_len CHUNK (List.length data) CHUNK).
Proof.
  unfold chunk_cmds, Py.range. cbn [List.length].
  now rewrite !length_map, length_seq.
Qed.

Lemma load_chunks_slices data :
  load_chunks data =
  map (fun k => Py.slice data (k * CHUNK) (k * CHUNK + CHUNK))
      (seq 0 (List.length (chunk_cmds data))).
Proof.
  unfold load_chunks, chunk_offsets.
  rewrite (offsets_multiples CHUNK), map_map, length_chunk_cmds. reflexivity.
Qed.

Lemma length_load_chunks data :
  List.length (load_chunks data) = List.length (chunk_cmds data).
Proof. now rewrite load_chunks_slices, length_map, length_seq. Qed.

Lemma chunk_at data k :
  (k < List.length (chunk_cmds data))%nat ->
  chunk data k = Py.slice data (k * CHUNK) (k * CHUNK + CHUNK).
Proof.
  intros Hk. unfold chunk. rewrite load_chunks_slices.
  rewrite (nth_indep _ [] (Py.slice data (0 * CHUNK) (0 * CHUNK + CHUNK)))
    by (now rewrite length_map, length_seq).
  rewrite (map_nth (fun k => Py.slice data (k * CHUNK) (k * CHUNK + CHUNK))).
  now rewrite seq_nth.
Qed.

Lemma chunk_cmds_nth data k :
  (k < List.length (chunk_cmds data))%nat ->
  nth k (chunk_cmds data) "" =
  "monitor snapshot;load;data:" ++ Py.bytes_hex (chunk data k)
    ++ ";state:" ++ (if (k =? 0)%nat then "start" else "cont").
Proof.
  intros Hk. rewrite (chunk_at data k Hk).
  rewrite length_chunk_cmds in Hk.
  destruct k as [|k]; [reflexivity|].
  unfold chunk_cmds, Py.range. cbn [nth Nat.eqb].
  rewrite map_map.
  rewrite (nth_indep _ "" (cont_cmd data (CHUNK + 0 * CHUNK)))
    by (rewrite length_map, length_seq; lia).
  rewrite (map_nth (fun x => cont_cmd data (CHUNK + x * CHUNK))).
  rewrite seq_nth by lia. reflexivity.
Qed.

Lemma concat_load_chunks data : List.concat (load_chunks data) = data.
Proof.
  rewrite load_chunks_slices, (concat_slices CHUNK CHUNK_pos), length_chunk_cmds.
  apply firstn_all2. apply (chunks_cover CHUNK CHUNK_pos).
Qed.

Lemma last_load_chunk data :
  List.length (last (load_chunks data) []) =
  if (List.length data =? 0)%nat then 0%nat
  else if (List.length data mod CHUNK =? 0)%nat then CHUNK
       else (List.length data mod CHUNK)%nat.
Proof.
  rewrite load_chunks_slices, length_chunk_cmds, seq_S, map_app. cbn [map Nat.add].
  rewrite last_last, (length_slice_chunk CHUNK CHUNK_pos).
  apply (last_chunk_length CHUNK CHUNK_pos).
Qed.

(** ** The commands with one answer to inspect *)

Lemma create_run env argv :
  run (SnapshotCreateCommand_invoke env argv) =
  let r := remote env [] (create_cmd argv) in
  let name := match argv with [] => None | a :: _ => Some a end in
  if (truthy_opt name && negb (eqb_opt r name)) || Py.contains SENTINEL r
  then (inl (GdbError ("Snapshot creation failed! " ++ r)), [Execute (create_cmd argv)])
  else (inr tt, [Execute (create_cmd argv); Write ("Created snapshot " ++ r ++ NL); Flush]).
Proof.
  unfold run, SnapshotCreateCommand_invoke, create_cmd, bind, snapshot_cmd, gdb_execute.
  cbv zeta. cbn [commands app].
  destruct argv as [|a argv]; cbn [truthy_opt str_opt].
  - destruct (_ || _); reflexivity.
  - destruct (Py.truthy a); destruct (_ || _); reflexivity.
Qed.

Lemma restore_run env name :
  run (SnapshotRestoreCommand_invoke env [name]) =
  match parse_info (remote env [] INFO) with
  | inl e => (inl e, [Execute INFO])
  | inr snaps =>
      if dict_mem name snaps then
        let r := remote env [INFO] (restore_cmd name) in
        if String.eqb r name && negb (Py.contains SENTINEL r)
        then (inr tt, [Execute INFO; Execute (restore_cmd name);
                       Write ("Restored snapshot " ++ r ++ NL); Flush])
        else (inl (GdbError ("Restoring snapshot failed! " ++ r)),
              [Execute INFO; Execute (restore_cmd name)])
      else (inl (GdbError ("Snapshot " ++ name ++ " not found!")), [Execute INFO])
  end.
Proof.
  unfold run, SnapshotRestoreCommand_invoke, bind. rewrite get_snapshots_info_at.
  cbn [commands app].
  destruct (parse_info (remote env [] INFO)) as [e|snaps]; [reflexivity|].
  destruct (dict_mem name snaps); [|reflexivity].
  unfold snapshot_cmd, gdb_execute, restore_cmd. cbn [negb commands app]. cbv zeta.
  destruct (String.eqb _ name); destruct (Py.contains SENTINEL _); reflexivity.
Qed.

Lemma save_run env name :
  run (SnapshotSaveCommand_invoke env [name]) =
  match parse_info (remote env [] INFO) with
  | inl e => (inl e, [Execute INFO])
  | inr snaps =>
      if negb (dict_mem name snaps)
      then (inl (GdbError ("Snapshot " ++ name ++ " not found!")), [Execute INFO])
      else if negb (path_exists env (Py.dirname (save_path name)))
      then (inl (GdbError ("Directory " ++ Py.dirname (save_path name)
                           ++ " does not exist!")), [Execute INFO])
      else
        let r := remote env [INFO] (save_cmd name) in
        let sent := [Execute INFO; Execute (save_cmd name)] in
        if Py.contains SENTINEL r
        then (inl (GdbError "Saving snapshot failed!"), sent)
        else if negb (writable env (save_path name))
        then (inl (OSError (save_path name)), sent)
        else
          match Py.bytes_fromhex r with
          | None => (inl (ValueError BadHex), (sent ++ [OpenWrite (save_path name)])%list)
          | Some blob =>
              (inr tt,
               (sent ++ [OpenWrite (save_path name); FileWrite (save_path name) blob;
                         Write ("Saved snapshot " ++ name ++ " to " ++ save_path name ++ NL);
                         Flush])%list)
          end
  end.
Proof.
  unfold run, SnapshotSaveCommand_invoke. cbn [List.length Nat.eqb Nat.ltb Nat.leb orb].
  unfold bind at 1. unfold index at 1. cbn [nth_error]. unfold ret at 1.
  unfold bind at 1. unfold ret at 1. fold (save_path name).
  unfold bind at 1. rewrite get_snapshots_info_at. cbn [commands app].
  destruct (parse_info (remote env [] INFO)) as [e|snaps]; [reflexivity|].
  destruct (dict_mem name snaps); [|reflexivity]. cbn [negb].
  destruct (path_exists env (Py.dirname (save_path name))); [|reflexivity]. cbn [negb].
  unfold bind, snapshot_cmd, gdb_execute, save_cmd, write_hex_file. cbv zeta.
  cbn [commands app].
  destruct (Py.contains SENTINEL _); [reflexivity|].
  destruct (writable env (save_path name)); [|reflexivity]. cbn [negb].
  unfold bind, emit. cbn [app].
  destruct (Py.bytes_fromhex _); reflexivity.
Qed.

(** ** The records of the specification against the code *)

Lemma spec_hex_digit_facts c d :
  spec_hex_digit c = Some d ->
  Py.digit_value c = Some d /\ (d <? 16)%N = true /\
  Ascii.eqb c "_" = false /\ Py.is_int_space c = false /\
  Ascii.eqb c "+" = false /\ Ascii.eqb c "-" = false /\
  Ascii.eqb c "x" = false /\ Ascii.eqb c "X" = false.
Proof.
  intros H. destruct c as [b0 b1 b2 b3 b4 b5 b6 b7].
  destruct b0, b1, b2, b3, b4, b5, b6, b7; vm_compute in H;
    try discriminate; injection H as <-; vm_compute; repeat split; reflexivity.
Qed.

Lemma spec_hex_scan s : forall acc k v,
  spec_hex_value acc s = Some v ->
  exists k', Py.scan_digits 16 false acc k s = Some (v, k', EmptyString).
Proof.
  induction s as [|c s IH]; intros acc k v H; cbn [spec_hex_value] in H.
  - injection H as <-. eexists. reflexivity.
  - destruct (spec_hex_digit c) as [d|] eqn:Ed; [|discriminate].
    destruct (spec_hex_digit_facts c d Ed) as (Hv & Hlt & Hus & _).
    cbn [Py.scan_digits]. rewrite Hus, Hv, Hlt.
    replace (acc * 16 + d)%N with (16 * acc + d)%N by lia.
    now apply IH.
Qed.

(** An unsigned hexadecimal text is read by [int(_, 16)] as its value. *)
Lemma spec_hex_int s n :
  spec_unsigned_hex s = Some n -> Py.int 16 s = Some (Z.of_N n).
Proof.
  destruct s as [|c rest]; [discriminate|]. cbn [spec_unsigned_hex spec_hex_value].
  destruct (spec_hex_digit c) as [d|] eqn:Ed; [|discriminate].
  destruct (spec_hex_digit_facts c d Ed) as (Hv & Hlt & Hus & Hsp & Hplus & Hminus & Hx & HX).
  intros Hval. rewrite N.mul_0_r, N.add_0_l in Hval.
  destruct (spec_hex_scan rest d 1 n Hval) as [k Hk].
  assert (Hskip : Py.skip_prefix 16 (String c rest) = String c rest).
  { unfold Py.skip_prefix. cbn [N.eqb Pos.eqb].
    destruct rest as [|c1 rest1]; [reflexivity|].
    cbn [spec_hex_value] in Hval.
    destruct (spec_hex_digit c1) as [d1|] eqn:Ed1; [|discriminate].
    destruct (spec_hex_digit_facts c1 d1 Ed1) as (_ & _ & _ & _ & _ & _ & Hx1 & HX1).
    rewrite Hx1, HX1. now rewrite andb_false_r. }
  unfold Py.int. cbn [Py.lstrip]. rewrite Hsp.
  unfold Py.split_sign. rewrite Hplus, Hminus, Hskip.
  cbn [Py.parse_digits]. rewrite Hv, Hlt, Hk. reflexivity.
Qed.

Lemma strict_record_spec line name n :
  strict_record line = Some (name, n) -> spec_record line = Some (name, Z.of_N n).
Proof.
  unfold strict_record, spec_record.
  destruct (count_char ":" line =? 1)%nat; [|discriminate].
  destruct (split_first ":" line) as [[a b]|]; [|discriminate].
  destruct (spec_unsigned_hex b) as [m|] eqn:Eh; [|discriminate].
  intros H. injection H as -> ->. now rewrite (spec_hex_int b n Eh).
Qed.

Lemma strict_records_spec lines : forall records,
  strict_records lines = Some records ->
  map spec_record lines = map Some (map as_entry records).
Proof.
  induction lines as [|line lines IH]; intros records H; cbn [strict_records] in H.
  - injection H as <-. reflexivity.
  - destruct (strict_record line) as [[name n]|] eqn:Er; [|discriminate].
    destruct (strict_records lines) as [rs|]; [|discriminate].
    injection H as <-. cbn [map]. rewrite (strict_record_spec line name n Er).
    now rewrite (IH rs).
Qed.

Lemma truthy_nonempty s : Py.truthy s = nonempty s.
Proof. destruct s; reflexivity. Qed.

(** On a text whose only line boundary is the newline, [splitlines]
    gives the non-empty newline-separated lines. *)
Lemma splitlines_newline_only s : forall line,
  newline_only s = true ->
  filter Py.truthy (Py.splitlines_from line s) =
  filter nonempty (newline_split line s).
Proof.
  induction s as [|c s IH]; intros line H.
  - cbn. rewrite <- truthy_nonempty.
    destruct (Py.truthy line) eqn:E; cbn; rewrite ?E; reflexivity.
  - unfold newline_only in H. cbn [string_forall] in H.
    apply andb_true_iff in H. destruct H as [Hc Hs].
    cbn [Py.splitlines_from newline_split].
    destruct (is_newline c) eqn:En.
    + unfold is_newline in En. apply Ascii.eqb_eq in En. subst c.
      cbn. rewrite truthy_nonempty. now rewrite (IH EmptyString Hs).
    + cbn [orb] in Hc. rewrite orb_false_r in Hc.
      apply negb_true_iff in Hc. rewrite Hc. now apply IH.
Qed.

Lemma last_offset_entries name records :
  dict_get name (rev (map as_entry records)) =
  option_map Z.of_N (last_offset name records).
Proof.
  induction records as [|[k v] records IH]; [reflexivity|].
  cbn [map rev last_offset]. rewrite dict_get_app, IH.
  destruct (last_offset name records); [reflexivity|].
  cbn [option_map dict_get as_entry fst snd].
  destruct (String.eqb k name); reflexivity.
Qed.

(** The digit limit of [int]: in base 10 a text of 4300 digits is read,
    one of 4301 is refused; base 16 has no limit. *)
Lemma int_digit_limit :
  Py.int 10 (string_of_list_ascii (repeat "0"%char 4300)) = Some 0%Z /\
  Py.int 10 (string_of_list_ascii (repeat "0"%char 4301)) = None /\
  Py.int 16 (string_of_list_ascii (repeat "0"%char 4301)) = Some 0%Z.
Proof. repeat split; vm_compute; reflexivity. Qed.

(* ================================================================== *)
(** * The claims *)
(* ================================================================== *)

(** ** Sentinel handling *)

(** C1, as stated, fails: a chunk acknowledgement that contains the
    sentinel is not classified by a sentinel test.  The script hands it
    to [int], and the failure that comes out is the [ValueError] of
    [int] on that very text.  The response to [info] is not tested
    either: a line made of the sentinel, a colon and hexadecimal digits
    becomes a catalog entry. *)
Lemma chunk_ack_sentinel_reaches_int :
  Py.contains SENTINEL (ack (example_env ["SNAPSHOT ERR"] []) [x01; x02; x03] 0) = true /\
  run (load_session (example_env ["SNAPSHOT ERR"] []) [x01; x02; x03]
                    ["snap.qsp"] "snap.qsp") =
    (inl (ValueError (BadIntLiteral "SNAPSHOT ERR")),
     [Execute "monitor snapshot;load;data:010203;state:start"]) /\
  run (get_snapshots_info (example_env ["SNAPSHOT ERR:bad"] [])) =
    (inr [("SNAPSHOT ERR", 2989%Z)], [Execute INFO]).
Proof. repeat split; vm_compute; reflexivity. Qed.

(** C1 (amended).  Let [r] be a response that contains the sentinel.
    - As the answer to [create], [restore], [save] or the last command
      of [load], [r] makes the command fail with a [GdbError]; nothing
      is decoded, written or printed.
    - As the acknowledgement of a data chunk of [load], [r] is not
      tested for the sentinel: it goes to the decimal parser, which
      rejects it, the command fails with the [ValueError] of [int] and
      no further command is sent. *)
Theorem sentinel_response_outcomes env r :
  Py.contains SENTINEL r = true ->
  (forall argv,
     remote env [] (create_cmd argv) = r ->
     run (SnapshotCreateCommand_invoke env argv) =
       (inl (GdbError ("Snapshot creation failed! " ++ r)),
        [Execute (create_cmd argv)])) /\
  (forall name snaps,
     parse_info (remote env [] INFO) = inr snaps ->
     dict_mem name snaps = true ->
     remote env [INFO] (restore_cmd name) = r ->
     run (SnapshotRestoreCommand_invoke env [name]) =
       (inl (GdbError ("Restoring snapshot failed! " ++ r)),
        [Execute INFO; Execute (restore_cmd name)])) /\
  (forall name snaps,
     parse_info (remote env [] INFO) = inr snaps ->
     dict_mem name snaps = true ->
     path_exists env (Py.dirname (save_path name)) = true ->
     remote env [INFO] (save_cmd name) = r ->
     run (SnapshotSaveCommand_invoke env [name]) =
       (inl (GdbError "Saving snapshot failed!"),
        [Execute INFO; Execute (save_cmd name)])) /\
  (forall data argv f_in,
     (forall k, (k < List.length (chunk_cmds data))%nat -> ack_ok env data k) ->
     remote env (chunk_cmds data) (done_cmd argv) = r ->
     run (load_session env data argv f_in) =
       (inl (GdbError "Saving snapshot failed!"),
        map Execute (chunk_cmds data ++ [done_cmd argv])%list)) /\
  (Py.int 10 r = None /\
   forall data argv f_in k,
     (k < List.length (chunk_cmds data))%nat ->
     (forall j, (j < k)%nat -> ack_ok env data j) ->
     ack env data k = r ->
     run (load_session env data argv f_in) =
       (inl (ValueError (BadIntLiteral r)),
        map Execute (firstn (S k) (chunk_cmds data)))).
Proof.
  intros Hr. repeat split.
  - intros argv Hresp. rewrite create_run. cbv zeta. rewrite Hresp, Hr.
    now rewrite orb_true_r.
  - intros name snaps Hinfo Hmem Hresp. rewrite restore_run, Hinfo, Hmem.
    cbv zeta. rewrite Hresp, Hr. now rewrite andb_false_r.
  - intros name snaps Hinfo Hmem Hdir Hresp. rewrite save_run, Hinfo, Hmem, Hdir.
    cbv zeta. cbn [negb]. now rewrite Hresp, Hr.
  - intros data argv f_in Hack Hresp. unfold run.
    rewrite load_session_complete by exact Hack.
    rewrite load_finish_at. cbv zeta. rewrite commands_executes, Hresp, Hr.
    rewrite map_app. reflexivity.
  - now apply int_sentinel.
  - intros data argv f_in k Hk Hack Hresp. unfold run.
    assert (Hbad : ~ ack_ok env data k).
    { unfold ack_ok. rewrite Hresp, (int_sentinel r Hr). discriminate. }
    rewrite (load_session_stops env data argv f_in k Hk Hack Hbad).
    now rewrite Hresp, (int_sentinel r Hr).
Qed.

Lemma sentinel_response_outcomes_witness :
  Py.contains SENTINEL "SNAPSHOT ERR: busy" = true /\
  run (SnapshotCreateCommand_invoke (example_env ["SNAPSHOT ERR: busy"] []) ["alpha"]) =
    (inl (GdbError "Snapshot creation failed! SNAPSHOT ERR: busy"),
     [Execute "monitor snapshot;create;name:alpha"]) /\
  run (load_session (example_env ["SNAPSHOT ERR: busy"] []) [x01; x02; x03]
                    ["snap.qsp"] "snap.qsp") =
    (inl (ValueError (BadIntLiteral "SNAPSHOT ERR: busy")),
     [Execute "monitor snapshot;load;data:010203;state:start"]).
Proof.
  assert (Hr : Py.contains SENTINEL "SNAPSHOT ERR: busy" = true) by reflexivity.
  destruct (sentinel_response_outcomes (example_env ["SNAPSHOT ERR: busy"] [])
              "SNAPSHOT ERR: busy" Hr) as (Hcreate & _ & _ & _ & _ & Hack).
  split; [exact Hr|split].
  - apply (Hcreate ["alpha"]). reflexivity.
  - apply (Hack [x01; x02; x03] ["snap.qsp"] "snap.qsp" 0%nat).
    + vm_compute. lia.
    + intros j Hj. lia.
    + reflexivity.
Defined.

(** ** The chunked upload *)

(** C2, as stated, fails for the empty blob: [ceil(0 / 1024)] is zero,
    and the script still sends one data chunk. *)
Lemma empty_blob_sends_one_chunk :
  commands (snd (run (load_session (example_env ["0"; "snap"] []) []
                                   ["snap.qsp"] "snap.qsp"))) =
    ["monitor snapshot;load;data:;state:start"; "monitor snapshot;load;state:done"] /\
  List.length (chunk_cmds []) = 1%nat /\
  ceil_div (List.length (@nil byte)) CHUNK = 0%nat.
Proof. repeat split; vm_compute; reflexivity. Qed.

(** C2 (amended).  For a blob of [n] bytes whose chunks are all
    acknowledged with their length, the commands of the load are the
    data chunks followed by the [state:done] command.  There are
    [max 1 (ceil (n / 1024))] data chunks; chunk [k] carries the bytes
    [[1024 k, 1024 k + 1024)] of the blob, the first one in state
    [start] and the others in state [cont]; put end to end the chunks
    give the blob, so their lengths add up to [n]; the last one has
    [n mod 1024] bytes, or [1024] when [n] is a positive multiple of
    1024 (and [n] when [n < 1024]). *)
Theorem load_sends_every_chunk env data argv f_in :
  (forall k, (k < List.length (chunk_cmds data))%nat -> ack_ok env data k) ->
  commands (snd (run (load_session env data argv f_in))) =
    (chunk_cmds data ++ [done_cmd argv])%list /\
  List.length (chunk_cmds data) = Nat.max 1 (ceil_div (List.length data) CHUNK) /\
  List.length (load_chunks data) = List.length (chunk_cmds data) /\
  (forall k, (k < List.length (chunk_cmds data))%nat ->
     chunk data k = Py.slice data (k * CHUNK) (k * CHUNK + CHUNK) /\
     nth k (chunk_cmds data) "" =
       "monitor snapshot;load;data:" ++ Py.bytes_hex (chunk data k)
         ++ ";state:" ++ (if (k =? 0)%nat then "start" else "cont")) /\
  List.concat (load_chunks data) = data /\
  list_sum (map (@List.length byte) (load_chunks data)) = List.length data /\
  List.length (last (load_chunks data) []) =
    (if (List.length data =? 0)%nat then 0%nat
     else if (List.length data mod CHUNK =? 0)%nat then CHUNK
          else (List.length data mod CHUNK)%nat).
Proof.
  intros Hack. repeat split.
  - unfold run. rewrite load_session_complete by exact Hack.
    rewrite load_finish_at. cbv zeta.
    destruct (Py.contains SENTINEL _); cbn [snd];
      rewrite commands_app, commands_executes; reflexivity.
  - rewrite length_chunk_cmds. apply (range_len_ceil CHUNK CHUNK_pos).
  - apply length_load_chunks.
  - now apply chunk_at.
  - now apply chunk_cmds_nth.
  - apply concat_load_chunks.
  - rewrite <- length_concat. now rewrite concat_load_chunks.
  - apply last_load_chunk.
Qed.

Lemma load_sends_every_chunk_witness :
  commands (snd (run (load_session (example_env ["1024"; "1024"; "452"; "snap"] [])
                                   (repeat x2a 2500) ["snap.qsp"] "snap.qsp"))) =
    (chunk_cmds (repeat x2a 2500) ++ [done_cmd ["snap.qsp"]])%list /\
  List.length (chunk_cmds (repeat x2a 2500)) = 3%nat.
Proof.
  assert (Hn : List.length (chunk_cmds (repeat x2a 2500)) = 3%nat)
    by (vm_compute; reflexivity).
  split; [|exact Hn].
  apply (load_sends_every_chunk (example_env ["1024"; "1024"; "452"; "snap"] [])
           (repeat x2a 2500) ["snap.qsp"] "snap.qsp").
  intros k Hk. rewrite Hn in Hk.
  destruct k as [|[|[|k]]]; [vm_compute; reflexivity ..|lia].
Defined.

(** C3.  If the chunks before chunk [k] are acknowledged with their
    length and chunk [k] is acknowledged with another number
    [len_recv], the load fails with the chunk failure of the script (a
    [GdbError] "Error sending snapshot data..."), and the commands sent
    are exactly the chunks up to [k]: no later chunk and no
    [state:done] command. *)
Theorem load_aborts_on_wrong_ack env data argv f_in k len_recv :
  (k < List.length (chunk_cmds data))%nat ->
  (forall j, (j < k)%nat -> ack_ok env data j) ->
  Py.int 10 (ack env data k) = Some len_recv ->
  len_recv <> chunk_len data k ->
  run (load_session env data argv f_in) =
    (inl (GdbError (mismatch_msg k len_recv)),
     map Execute (firstn (S k) (chunk_cmds data))) /\
  ~ In (done_cmd argv) (commands (snd (run (load_session env data argv f_in)))).
Proof.
  intros Hk Hack Hint Hne.
  assert (Hbad : ~ ack_ok env data k).
  { unfold ack_ok. rewrite Hint. intros H. injection H as H. contradiction. }
  assert (Hrun : run (load_session env data argv f_in) =
                 (inl (GdbError (mismatch_msg k len_recv)),
                  map Execute (firstn (S k) (chunk_cmds data)))).
  { unfold run. rewrite (load_session_stops env data argv f_in k Hk Hack Hbad).
    now rewrite Hint. }
  split; [exact Hrun|].
  rewrite Hrun. cbn [snd]. rewrite commands_executes. intros Hin.
  apply (In_nth _ _ "") in Hin. destruct Hin as (j & Hj & Hnth).
  rewrite length_firstn in Hj.
  rewrite nth_firstn in Hnth.
  destruct (j <? S k)%nat; [|destruct argv as [|? [|? [|]]]; discriminate].
  rewrite chunk_cmds_nth in Hnth by lia.
  destruct argv as [|? [|? [|]]]; discriminate.
Qed.

Lemma load_aborts_on_wrong_ack_witness :
  run (load_session (example_env ["1024"; "1000"] []) (repeat x2a 2500)
                    ["snap.qsp"] "snap.qsp") =
    (inl (GdbError "Error sending snapshot data!"),
     map Execute (firstn 2 (chunk_cmds (repeat x2a 2500)))) /\
  List.length (chunk_cmds (repeat x2a 2500)) = 3%nat.
Proof.
  assert (Hn : List.length (chunk_cmds (repeat x2a 2500)) = 3%nat)
    by (vm_compute; reflexivity).
  split; [|exact Hn].
  apply (load_aborts_on_wrong_ack (example_env ["1024"; "1000"] [])
           (repeat x2a 2500) ["snap.qsp"] "snap.qsp" 1%nat 1000%Z).
  - rewrite Hn. lia.
  - intros j Hj. assert (j = 0%nat) as -> by lia. vm_compute. reflexivity.
  - vm_compute. reflexivity.
  - vm_compute. discriminate.
Defined.

(** C9.  For the empty blob the only data chunk is a [state:start]
    command with an empty payload.  When its acknowledgement reads as
    the integer 0 the load goes on to the [state:done] command;
    otherwise the load fails and nothing else is sent. *)
Theorem load_empty_blob env argv f_in :
  chunk_cmds [] = ["monitor snapshot;load;data:;state:start"] /\
  (Py.int 10 (remote env [] "monitor snapshot;load;data:;state:start") = Some 0%Z ->
   commands (snd (run (load_session env [] argv f_in))) =
     ["monitor snapshot;load;data:;state:start"; done_cmd argv]) /\
  (Py.int 10 (remote env [] "monitor snapshot;load;data:;state:start") <> Some 0%Z ->
   snd (run (load_session env [] argv f_in)) =
     [Execute "monitor snapshot;load;data:;state:start"] /\
   exists e, fst (run (load_session env [] argv f_in)) = inl e).
Proof.
  assert (Hcmds : chunk_cmds [] = ["monitor snapshot;load;data:;state:start"])
    by (vm_compute; reflexivity).
  assert (Hlen : chunk_len [] 0 = 0%Z) by (vm_compute; reflexivity).
  split; [exact Hcmds|split].
  - intros Hack. unfold run. rewrite load_session_complete.
    + rewrite load_finish_at. cbv zeta. rewrite Hcmds.
      destruct (Py.contains SENTINEL _); reflexivity.
    + intros j Hj. rewrite Hcmds in Hj. cbn [List.length] in Hj.
      assert (j = 0%nat) as -> by lia.
      unfold ack_ok, ack. rewrite Hcmds, Hlen. exact Hack.
  - intros Hack. unfold run.
    rewrite (load_session_stops env [] argv f_in 0).
    + rewrite Hcmds. cbn [firstn map snd fst]. split; [reflexivity|].
      destruct (Py.int 10 _); eauto.
    + rewrite Hcmds. cbn [List.length]. lia.
    + intros j Hj. lia.
    + unfold ack_ok, ack. rewrite Hcmds, Hlen. exact Hack.
Qed.

Lemma load_empty_blob_witness :
  commands (snd (run (load_session (example_env ["0"; "snap"] []) []
                                   ["snap.qsp"; "alpha"] "snap.qsp"))) =
    ["monitor snapshot;load;data:;state:start";
     "monitor snapshot;load;state:done;name:alpha"] /\
  snd (run (load_session (example_env ["1"; "snap"] []) [] ["snap.qsp"] "snap.qsp")) =
    [Execute "monitor snapshot;load;data:;state:start"].
Proof.
  split.
  - apply (load_empty_blob (example_env ["0"; "snap"] []) ["snap.qsp"; "alpha"] "snap.qsp").
    vm_compute. reflexivity.
  - apply (load_empty_blob (example_env ["1"; "snap"] []) ["snap.qsp"] "snap.qsp").
    vm_compute. discriminate.
Defined.

(** ** The catalog *)

(** C4, as stated, fails in two ways.  The offset is read by
    [int(_, 16)], which takes more than unsigned hexadecimal text: a
    sign, a [0x] prefix, single underscores and surrounding blanks; so
    [a:-1f], whose offset is no base-16 unsigned integer, gives the
    entry [a: -31] and no fault.  And the lines are those of
    [str.splitlines], which cuts at more than the newline: two records
    joined by FS are one newline-separated line with two separators,
    and are accepted as two records. *)
Lemma info_accepts_more_than_unsigned_hex :
  spec_unsigned_hex "-1f" = None /\
  strict_info "a:-1f" = None /\
  run (get_snapshots_info (example_env ["a:-1f"] [])) =
    (inr [("a", (-31)%Z)], [Execute INFO]) /\
  newline_split EmptyString ("a:1" ++ FS ++ "b:2") = ["a:1" ++ FS ++ "b:2"] /\
  count_char ":" ("a:1" ++ FS ++ "b:2") = 2%nat /\
  strict_info ("a:1" ++ FS ++ "b:2") = None /\
  run (get_snapshots_info (example_env ["a:1" ++ FS ++ "b:2"] [])) =
    (inr [("a", 1%Z); ("b", 2%Z)], [Execute INFO]).
Proof. repeat split; vm_compute; reflexivity. Qed.

(** C4 (amended).  [get_snapshots_info] sends [info], cuts the response
    at the line boundaries of [str.splitlines], drops the empty lines
    and reads each line as the text before its first colon and an
    offset read by [int(_, 16)].
    - It computes exactly that reading ([spec_parse_info]).
    - A line that does not hold exactly one colon, or whose offset
      [int(_, 16)] rejects, makes the call fail with a [ValueError].
    - A response without non-empty lines gives the empty catalog, which
      is a value and not a failure.
    - On a response whose only line boundary is the newline and whose
      non-empty lines are all records [name:unsigned-hex] (the
      specification's own parser, [strict_info], accepts it), the call
      succeeds and the catalog gives every name the offset of its last
      record. *)
Theorem info_response_parsing env :
  match spec_parse_info (remote env [] INFO) with
  | Some d => run (get_snapshots_info env) = (inr d, [Execute INFO])
  | None =>
      exists why, run (get_snapshots_info env) = (inl (ValueError why), [Execute INFO])
  end /\
  (forall line,
     In line (info_lines (remote env [] INFO)) ->
     count_char ":" line <> 1%nat \/
     (exists name offset,
        split_first ":" line = Some (name, offset) /\ Py.int 16 offset = None) ->
     exists why, run (get_snapshots_info env) = (inl (ValueError why), [Execute INFO])) /\
  (info_lines (remote env [] INFO) = [] ->
   run (get_snapshots_info env) = (inr [], [Execute INFO])) /\
  (forall why, @inl exception dict (ValueError why) <> inr []) /\
  (forall records,
     newline_only (remote env [] INFO) = true ->
     strict_info (remote env [] INFO) = Some records ->
     exists d,
       run (get_snapshots_info env) = (inr d, [Execute INFO]) /\
       forall name, dict_get name d = option_map Z.of_N (last_offset name records)).
Proof.
  assert (Hrun : run (get_snapshots_info env) =
                 (parse_info (remote env [] INFO), [Execute INFO])).
  { unfold run. now rewrite get_snapshots_info_at. }
  pose proof (parse_info_refines (remote env [] INFO)) as Href.
  split; [|split; [|split; [|split]]].
  - rewrite Hrun. destruct (spec_parse_info (remote env [] INFO)) as [d|].
    + now rewrite Href.
    + destruct Href as [why Hwhy]. exists why. now rewrite Hwhy.
  - intros line Hin Hbad. rewrite Hrun.
    assert (Hrec : spec_record line = None).
    { destruct Hbad as [Hcount|(name & offset & Hsplit & Hint)].
      - now apply spec_record_count.
      - unfold spec_record. now rewrite Hsplit, Hint. }
    unfold spec_parse_info in Href.
    rewrite (spec_catalog_bad_line line _ [] Hin Hrec) in Href.
    destruct Href as [why Hwhy]. exists why. now rewrite Hwhy.
  - intros Hlines. rewrite Hrun. unfold spec_parse_info in Href.
    rewrite Hlines in Href. cbn [spec_catalog] in Href. now rewrite Href.
  - discriminate.
  - intros records Hnl Hstrict. rewrite Hrun.
    unfold strict_info in Hstrict.
    rewrite <- (splitlines_newline_only _ EmptyString Hnl) in Hstrict.
    fold (Py.splitlines (remote env [] INFO)) in Hstrict.
    fold (info_lines (remote env [] INFO)) in Hstrict.
    pose proof (strict_records_spec _ _ Hstrict) as Hmap.
    unfold spec_parse_info in Href.
    rewrite (spec_catalog_records _ _ [] Hmap) in Href.
    eexists. split; [now rewrite Href|].
    intros name. rewrite fold_set_get, last_offset_entries.
    destruct (option_map Z.of_N (last_offset name records)); reflexivity.
Qed.

Lemma info_response_parsing_witness :
  (exists why,
     run (get_snapshots_info (example_env ["alpha:40" ++ NL ++ "beta:1:2"] [])) =
       (inl (ValueError why), [Execute INFO])) /\
  run (get_snapshots_info (example_env [""] [])) = (inr [], [Execute INFO]) /\
  (exists d,
     run (get_snapshots_info
            (example_env ["alpha:40" ++ NL ++ NL ++ "beta:1F" ++ NL ++ "alpha:80" ++ NL] [])) =
       (inr d, [Execute INFO]) /\
     forall name,
       dict_get name d =
       option_map Z.of_N
         (last_offset name [("alpha", 64%N); ("beta", 31%N); ("alpha", 128%N)])).
Proof.
  split; [|split].
  - apply (info_response_parsing (example_env ["alpha:40" ++ NL ++ "beta:1:2"] []))
      with (line := "beta:1:2").
    + vm_compute. right. left. reflexivity.
    + left. vm_compute. discriminate.
  - apply (info_response_parsing (example_env [""] [])). reflexivity.
  - apply (info_response_parsing
             (example_env ["alpha:40" ++ NL ++ NL ++ "beta:1F" ++ NL ++ "alpha:80" ++ NL] []));
      vm_compute; reflexivity.
Defined.

(** C5, as stated, fails: a response that names the same snapshot on two
    records is parsed without a fault, and the catalog keeps one entry
    for the name. *)
Lemma duplicate_name_is_accepted :
  run (get_snapshots_info (example_env ["alpha:40" ++ NL ++ "alpha:80"] [])) =
    (inr [("alpha", 128%Z)], [Execute INFO]).
Proof. vm_compute. reflexivity. Qed.

(** C5 (amended).  When every non-empty line of the [info] response is a
    well-formed record, parsing succeeds whether or not a name occurs
    more than once; the catalog has each name once, with the offset of
    the last record that carries it. *)
Theorem info_duplicate_takes_last env records :
  map spec_record (info_lines (remote env [] INFO)) = map Some records ->
  exists d,
    run (get_snapshots_info env) = (inr d, [Execute INFO]) /\
    NoDup (map fst d) /\
    forall name, dict_get name d = dict_get name (rev records).
Proof.
  intros Hrecs. exists (fold_left set_record records []).
  split; [|split].
  - unfold run. rewrite get_snapshots_info_at. cbn [commands app].
    pose proof (parse_info_refines (remote env [] INFO)) as Href.
    unfold spec_parse_info in Href.
    rewrite (spec_catalog_records _ records [] Hrecs) in Href.
    now rewrite Href.
  - apply fold_set_nodup. constructor.
  - intros name. rewrite fold_set_get.
    destruct (dict_get name (rev records)); reflexivity.
Qed.

Lemma info_duplicate_takes_last_witness :
  exists d,
    run (get_snapshots_info
           (example_env ["alpha:40" ++ NL ++ "beta:1f" ++ NL ++ "alpha:80"] [])) =
      (inr d, [Execute INFO]) /\
    NoDup (map fst d) /\
    forall name,
      dict_get name d =
      dict_get name (rev [("alpha", 64%Z); ("beta", 31%Z); ("alpha", 128%Z)]).
Proof.
  apply (info_duplicate_takes_last
           (example_env ["alpha:40" ++ NL ++ "beta:1f" ++ NL ++ "alpha:80"] [])
           [("alpha", 64%Z); ("beta", 31%Z); ("alpha", 128%Z)]).
  vm_compute. reflexivity.
Defined.

(** ** Delete, restore, save *)

(** C6 does not hold of the script: [SnapshotDeleteCommand] is registered
    with its docstring but defines no [invoke].  Whatever the arguments
    and the catalog, [snapshot delete] queries nothing and sends
    nothing; GDB reports the missing method. *)
Theorem delete_sends_nothing env argv :
  invoke_method env delete = None /\
  run (gdb_command env delete argv) = (inl MissingInvoke, []).
Proof. split; reflexivity. Qed.

(** C7.  [snapshot restore name] first sends [info].  If the catalog
    parsed from the answer lacks [name], the command fails with
    "Snapshot name not found!" and nothing else is sent.  Otherwise the
    restore command is sent, and the command succeeds exactly when the
    answer equals [name] and holds no sentinel; in every other case it
    fails with "Restoring snapshot failed! ...". *)
Theorem restore_checks_catalog_first env name :
  (exists rest,
     snd (run (SnapshotRestoreCommand_invoke env [name])) = Execute INFO :: rest) /\
  (forall snaps,
     parse_info (remote env [] INFO) = inr snaps ->
     dict_mem name snaps = false ->
     run (SnapshotRestoreCommand_invoke env [name]) =
       (inl (GdbError ("Snapshot " ++ name ++ " not found!")), [Execute INFO])) /\
  (forall snaps,
     parse_info (remote env [] INFO) = inr snaps ->
     dict_mem name snaps = true ->
     run (SnapshotRestoreCommand_invoke env [name]) =
       if String.eqb (remote env [INFO] (restore_cmd name)) name
          && negb (Py.contains SENTINEL (remote env [INFO] (restore_cmd name)))
       then (inr tt,
             [Execute INFO; Execute (restore_cmd name);
              Write ("Restored snapshot " ++ remote env [INFO] (restore_cmd name) ++ NL);
              Flush])
       else (inl (GdbError ("Restoring snapshot failed! "
                            ++ remote env [INFO] (restore_cmd name))),
             [Execute INFO; Execute (restore_cmd name)])).
Proof.
  rewrite restore_run. split; [|split].
  - destruct (parse_info (remote env [] INFO)) as [e|snaps];
      [eexists; reflexivity|].
    destruct (dict_mem name snaps); [|eexists; reflexivity].
    cbv zeta. destruct (_ && _); eexists; reflexivity.
  - intros snaps Hinfo Hmem. now rewrite Hinfo, Hmem.
  - intros snaps Hinfo Hmem. now rewrite Hinfo, Hmem.
Qed.

Lemma restore_checks_catalog_first_witness :
  run (SnapshotRestoreCommand_invoke
         (example_env ["alpha:40" ++ NL ++ "beta:1f"; "alpha"] []) ["missing"]) =
    (inl (GdbError "Snapshot missing not found!"), [Execute INFO]) /\
  run (SnapshotRestoreCommand_invoke
         (example_env ["alpha:40" ++ NL ++ "beta:1f"; "alpha"] []) ["alpha"]) =
    (inr tt,
     [Execute INFO; Execute "monitor snapshot;restore;name:alpha";
      Write ("Restored snapshot alpha" ++ NL); Flush]).
Proof.
  split.
  - apply (restore_checks_catalog_first
             (example_env ["alpha:40" ++ NL ++ "beta:1f"; "alpha"] []) "missing")
      with (snaps := [("alpha", 64%Z); ("beta", 31%Z)]); vm_compute; reflexivity.
  - apply (restore_checks_catalog_first
             (example_env ["alpha:40" ++ NL ++ "beta:1f"; "alpha"] []) "alpha")
      with (snaps := [("alpha", 64%Z); ("beta", 31%Z)]); vm_compute; reflexivity.
Defined.

(** C8.  In [snapshot save name], once the name is found and the
    directory exists, the answer to the save command is tested for the
    sentinel first.  With the sentinel the command fails with "Saving
    snapshot failed!": no file is opened and the answer is not decoded.
    Without it the file is opened and the answer goes to
    [bytes.fromhex]. *)
Theorem save_sentinel_before_hex env name snaps :
  parse_info (remote env [] INFO) = inr snaps ->
  dict_mem name snaps = true ->
  path_exists env (Py.dirname (save_path name)) = true ->
  (Py.contains SENTINEL (remote env [INFO] (save_cmd name)) = true ->
   run (SnapshotSaveCommand_invoke env [name]) =
     (inl (GdbError "Saving snapshot failed!"),
      [Execute INFO; Execute (save_cmd name)])) /\
  (Py.contains SENTINEL (remote env [INFO] (save_cmd name)) = false ->
   writable env (save_path name) = true ->
   run (SnapshotSaveCommand_invoke env [name]) =
     match Py.bytes_fromhex (remote env [INFO] (save_cmd name)) with
     | Some blob =>
         (inr tt,
          [Execute INFO; Execute (save_cmd name);
           OpenWrite (save_path name); FileWrite (save_path name) blob;
           Write ("Saved snapshot " ++ name ++ " to " ++ save_path name ++ NL);
           Flush])
     | None =>
         (inl (ValueError BadHex),
          [Execute INFO; Execute (save_cmd name); OpenWrite (save_path name)])
     end).
Proof.
  intros Hinfo Hmem Hdir. rewrite save_run, Hinfo, Hmem, Hdir. cbn [negb]. cbv zeta.
  split.
  - intros Hs. now rewrite Hs.
  - intros Hs Hw. rewrite Hs, Hw. cbn [negb].
    destruct (Py.bytes_fromhex _); reflexivity.
Qed.

Lemma save_sentinel_before_hex_witness :
  run (SnapshotSaveCommand_invoke
         (example_env ["alpha:40"; "SNAPSHOT ERR: gone"] []) ["alpha"]) =
    (inl (GdbError "Saving snapshot failed!"),
     [Execute INFO; Execute "monitor snapshot;save;name:alpha"]) /\
  run (SnapshotSaveCommand_invoke (example_env ["alpha:40"; "00ff2a"] []) ["alpha"]) =
    (inr tt,
     [Execute INFO; Execute "monitor snapshot;save;name:alpha";
      OpenWrite "./alpha.qsp"; FileWrite "./alpha.qsp" [x00; xff; x2a];
      Write ("Saved snapshot alpha to ./alpha.qsp" ++ NL); Flush]).
Proof.
  split.
  - apply (save_sentinel_before_hex (example_env ["alpha:40"; "SNAPSHOT ERR: gone"] [])
             "alpha" [("alpha", 64%Z)]); vm_compute; reflexivity.
  - apply (save_sentinel_before_hex (example_env ["alpha:40"; "00ff2a"] [])
             "alpha" [("alpha", 64%Z)]); vm_compute; reflexivity.
Defined.

(** C10.  With two arguments [snapshot save] evaluates [argv[2]] on a
    list of two elements: the command ends with [IndexError] before the
    catalog is queried or anything is sent.  Hence a file that the
    command opens is never the path given by the caller: it is
    [./name.qsp] for the single argument [name]. *)
Theorem save_two_arguments_index_error env :
  (forall name path,
     run (SnapshotSaveCommand_invoke env [name; path]) = (inl IndexError, [])) /\
  (forall argv path,
     In (OpenWrite path) (snd (run (SnapshotSaveCommand_invoke env argv))) ->
     exists name, argv = [name] /\ path = save_path name).
Proof.
  split; [reflexivity|].
  intros argv path Hin.
  destruct argv as [|name [|path' [|x argv]]]; try (now destruct Hin).
  exists name. split; [reflexivity|].
  rewrite save_run in Hin.
  destruct (parse_info (remote env [] INFO)) as [e|snaps].
  { cbn in Hin. destruct Hin as [H|[]]. discriminate. }
  destruct (negb (dict_mem name snaps)).
  { cbn in Hin. destruct Hin as [H|[]]. discriminate. }
  destruct (negb (path_exists env (Py.dirname (save_path name)))).
  { cbn in Hin. destruct Hin as [H|[]]. discriminate. }
  cbv zeta in Hin.
  destruct (Py.contains SENTINEL _).
  { cbn in Hin. destruct Hin as [H|[H|[]]]; discriminate. }
  destruct (negb (writable env (save_path name))).
  { cbn in Hin. destruct Hin as [H|[H|[]]]; discriminate. }
  destruct (Py.bytes_fromhex _); cbn [snd app In] in Hin;
    repeat (destruct Hin as [H|Hin]; [try discriminate; now injection H|]);
    contradiction.
Qed.

Lemma save_two_arguments_index_error_witness :
  exists name,
    ["alpha"] = [name] /\ "./alpha.qsp" = save_path name.
Proof.
  apply (save_two_arguments_index_error (example_env ["alpha:40"; "00ff2a"] [])).
  vm_compute. right. right. left. reflexivity.
Defined.

(* ================================================================== *)
(** * Further properties of the script *)
(* ================================================================== *)

(** ** Hexadecimal payloads *)

Lemma fromhex_hex_byte x rest :
  Py.bytes_fromhex (Py.bytes_hex [x] ++ rest) =
  match Py.bytes_fromhex rest with
  | Some tl => Some (x :: tl)
  | None => None
  end.
Proof. destruct x; reflexivity. Qed.

Lemma bytes_hex_app a : forall b,
  Py.bytes_hex (a ++ b)%list = Py.bytes_hex a ++ Py.bytes_hex b.
Proof.
  induction a as [|x a IH]; intros b; [reflexivity|].
  cbn [app Py.bytes_hex append]. now rewrite IH.
Qed.

Lemma fromhex_hex_app b : forall rest,
  Py.bytes_fromhex (Py.bytes_hex b ++ rest) =
  match Py.bytes_fromhex rest with
  | Some tl => Some (b ++ tl)%list
  | None => None
  end.
Proof.
  induction b as [|x b IH]; intros rest.
  - cbn [Py.bytes_hex append app]. destruct (Py.bytes_fromhex rest); reflexivity.
  - change (Py.bytes_hex (x :: b) ++ rest)
      with (Py.bytes_hex [x] ++ (Py.bytes_hex b ++ rest)).
    rewrite fromhex_hex_byte, IH.
    destruct (Py.bytes_fromhex rest); reflexivity.
Qed.

Lemma length_bytes_hex b : String.length (Py.bytes_hex b) = (2 * List.length b)%nat.
Proof.
  induction b as [|x b IH]; [reflexivity|].
  cbn [Py.bytes_hex String.length List.length]. rewrite IH. lia.
Qed.

Lemma join_hex chunks :
  join (map Py.bytes_hex chunks) = Py.bytes_hex (List.concat chunks).
Proof.
  induction chunks as [|c chunks IH]; [reflexivity|].
  cbn [map join fold_right List.concat]. rewrite bytes_hex_app. f_equal. exact IH.
Qed.

(** ** Printing and reading numbers *)

Lemma scan_digit base c v acc k s :
  Ascii.eqb c "_" = false -> Py.digit_value c = Some v -> (v <? base)%N = true ->
  Py.scan_digits base false acc k (String c s) =
  Py.scan_digits base false (acc * base + v) (k + 1) s.
Proof. intros Hus Hv Hlt. cbn [Py.scan_digits]. now rewrite Hus, Hv, Hlt. Qed.

(** [int(str(n)) == n] for the lengths that a chunk can have (the text
    of such a number is far below the digit limit). *)
Lemma int_str_small n :
  (n <= 1024)%nat -> Py.int 10 (Py.str_of_int (Z.of_nat n)) = Some (Z.of_nat n).
Proof.
  intros Hn.
  assert (Hall : forallb (fun m =>
                            match Py.int 10 (Py.str_of_int (Z.of_nat m)) with
                            | Some z => (z =? Z.of_nat m)%Z
                            | None => false
                            end) (seq 0 1025) = true) by (vm_compute; reflexivity).
  rewrite forallb_forall in Hall.
  specialize (Hall n ltac:(apply in_seq; lia)). cbv beta in Hall.
  destruct (Py.int 10 (Py.str_of_int (Z.of_nat n))) as [z|]; [|discriminate].
  apply Z.eqb_eq in Hall. now subst z.
Qed.

Lemma scan_hexadecimal d : forall acc k,
  exists k',
    Py.scan_digits 16 false acc k (HexadecimalString.NilEmpty.string_of_uint d) =
    Some (hex_uint_value d acc, k', EmptyString).
Proof.
  induction d; intros acc k;
    cbn [HexadecimalString.NilEmpty.string_of_uint hex_uint_value];
    [eexists; reflexivity| ..];
    (erewrite scan_digit; [|reflexivity|vm_compute; reflexivity|reflexivity]);
    edestruct IHd as [k' Hk']; exists k'; rewrite Hk'; do 4 f_equal; lia.
Qed.

Lemma hex_uint_value_acc d : forall p,
  hex_uint_value d (Npos p) = Npos (Pos.of_hex_uint_acc d p).
Proof.
  induction d; intros p; cbn [hex_uint_value Pos.of_hex_uint_acc]; [reflexivity| ..];
    rewrite <- IHd; f_equal; lia.
Qed.

Lemma hex_uint_value_of_uint d : hex_uint_value d 0 = Pos.of_hex_uint d.
Proof.
  induction d; cbn [hex_uint_value Pos.of_hex_uint]; [reflexivity|exact IHd| ..];
    apply hex_uint_value_acc.
Qed.

Lemma parse_hexadecimal d :
  d <> Hexadecimal.Nil ->
  exists k,
    Py.parse_digits 16 (HexadecimalString.NilEmpty.string_of_uint d) =
    Some (Pos.of_hex_uint d, k, EmptyString).
Proof.
  intros Hd. rewrite <- hex_uint_value_of_uint.
  destruct d; [contradiction| ..];
    cbn [HexadecimalString.NilEmpty.string_of_uint hex_uint_value];
    match goal with
    | |- context [HexadecimalString.NilEmpty.string_of_uint ?l] =>
        match goal with
        | |- context [hex_uint_value l ?a] =>
            destruct (scan_hexadecimal l a 1) as [k Hk]; exists k;
            (etransitivity; [|exact Hk]); reflexivity
        end
    end.
Qed.

Lemma int_hexadecimal d :
  d <> Hexadecimal.Nil ->
  Py.int 16 ("0x" ++ HexadecimalString.NilEmpty.string_of_uint d) =
    Some (Z.of_N (Pos.of_hex_uint d)) /\
  Py.int 16 ("-0x" ++ HexadecimalString.NilEmpty.string_of_uint d) =
    Some (- Z.of_N (Pos.of_hex_uint d))%Z.
Proof.
  intros Hd. destruct (parse_hexadecimal d Hd) as [k Hp].
  destruct d; [contradiction| ..];
    cbn [HexadecimalString.NilEmpty.string_of_uint append] in *;
    unfold Py.int; cbn [Py.lstrip Py.split_sign Py.skip_prefix]; cbn -[Py.parse_digits];
    rewrite Hp; split; reflexivity.
Qed.

(** [int(hex(n), 16) == n]: base 16 has no digit limit. *)
Lemma int_hex n : Py.int 16 (Py.hex n) = Some n.
Proof.
  unfold Py.hex, HexadecimalString.NilZero.string_of_uint.
  destruct n as [|p|p]; cbn [Z.abs_N Z.ltb Z.compare N.to_hex_uint].
  - reflexivity.
  - pose proof (HexadecimalPos.Unsigned.to_uint_nonnil p) as Hnil.
    destruct (int_hexadecimal (Pos.to_hex_uint p) Hnil) as [H _].
    rewrite HexadecimalPos.Unsigned.of_to in H.
    destruct (Pos.to_hex_uint p); [contradiction|exact H ..].
  - pose proof (HexadecimalPos.Unsigned.to_uint_nonnil p) as Hnil.
    destruct (int_hexadecimal (Pos.to_hex_uint p) Hnil) as [_ H].
    rewrite HexadecimalPos.Unsigned.of_to in H.
    destruct (Pos.to_hex_uint p); [contradiction|exact H ..].
Qed.

(** ** The transfer, whatever the target answers *)

Lemma send_cont_trace env data : forall rng lg,
  exists k,
    (k <= List.length rng)%nat /\
    snd (send_cont env data rng lg) =
      (lg ++ map Execute (firstn k (map (cont_cmd data) rng)))%list /\
    (fst (send_cont env data rng lg) = inr tt -> k = List.length rng).
Proof.
  induction rng as [|i rng IH]; intros lg.
  - exists 0%nat. cbn. now rewrite app_nil_r.
  - rewrite send_cont_cons. cbv zeta.
    destruct (Py.int 10 _) as [n|].
    + destruct (n =? _)%Z.
      * destruct (IH (lg ++ [Execute (cont_cmd data i)])%list) as (k & Hk & Hsnd & Hfst).
        exists (S k). cbn [List.length firstn map].
        split; [lia|split].
        -- rewrite Hsnd, <- app_assoc. reflexivity.
        -- intros H. now rewrite (Hfst H).
      * exists 1%nat. cbn [List.length firstn map fst snd].
        split; [lia|split; [reflexivity|discriminate]].
    + exists 1%nat. cbn [List.length firstn map fst snd].
      split; [lia|split; [reflexivity|discriminate]].
Qed.

Lemma full_chunk c n k :
  (0 < c)%nat -> (k < Py.range_len c n c)%nat -> (c <= n - k * c)%nat.
Proof.
  intros Hc. unfold Py.range_len. destruct (c <? n)%nat eqn:E; [|lia].
  apply Nat.ltb_lt in E. intros Hk.
  pose proof (Nat.div_mod_eq (n - c - 1) c) as Hd.
  pose proof (Nat.mod_upper_bound (n - c - 1) c ltac:(lia)) as Hm.
  set (q := ((n - c - 1) / c)%nat) in *. set (r := ((n - c - 1) mod c)%nat) in *.
  assert (k * c <= q * c)%nat by nia. nia.
Qed.

Lemma length_append (a b : string) :
  String.length (a ++ b) = (String.length a + String.length b)%nat.
Proof. induction a as [|x a IH]; cbn; [reflexivity|now rewrite IH]. Qed.

(** X1.  Whatever the target answers, the commands of a load are an
    initial part of the sequence "data chunks in order, then
    [state:done]": nothing is skipped, repeated or sent out of order.
    At least the first chunk is sent; the load succeeds only when the
    whole sequence has been sent, and it prints its message (and
    flushes) exactly when it succeeds. *)
Theorem load_session_trace env data argv f_in :
  exists k,
    (1 <= k <= S (List.length (chunk_cmds data)))%nat /\
    snd (run (load_session env data argv f_in)) =
      (map Execute (firstn k (chunk_cmds data ++ [done_cmd argv]))
       ++ match fst (run (load_session env data argv f_in)) with
          | inr _ =>
              [loaded_msg (remote env (chunk_cmds data) (done_cmd argv)) f_in; Flush]
          | inl _ => []
          end)%list /\
    (fst (run (load_session env data argv f_in)) = inr tt ->
     k = S (List.length (chunk_cmds data))).
Proof.
  set (rng := Py.range CHUNK (List.length data) CHUNK).
  assert (Hcmds : chunk_cmds data =
                  nth 0 (chunk_cmds data) "" :: map (cont_cmd data) rng) by reflexivity.
  assert (Hlen : List.length (chunk_cmds data) = S (List.length rng)).
  { rewrite Hcmds. cbn [List.length]. now rewrite length_map. }
  unfold run, load_session, bind. rewrite send_start_at. cbv zeta. cbn [commands app].
  set (start := nth 0 (chunk_cmds data) "") in *.
  assert (Hone : forall e : exception,
             exists k, (1 <= k <= S (List.length (chunk_cmds data)))%nat /\
               snd (@inl exception unit e, [Execute start]) =
               (map Execute (firstn k (chunk_cmds data ++ [done_cmd argv]))
                ++ match fst (@inl exception unit e, [Execute start]) with
                   | inr _ =>
                       [loaded_msg (remote env (chunk_cmds data) (done_cmd argv)) f_in;
                        Flush]
                   | inl _ => []
                   end)%list /\
               (fst (@inl exception unit e, [Execute start]) = inr tt ->
                k = S (List.length (chunk_cmds data)))).
  { intros e. exists 1%nat. rewrite Hcmds. cbn [firstn app map fst snd].
    split; [lia|split; [reflexivity|discriminate]]. }
  destruct (Py.int 10 (remote env [] start)) as [n|]; [|apply Hone].
  destruct (n =? chunk_len data 0)%Z; [|apply Hone].
  fold rng.
  destruct (send_cont_trace env data rng [Execute start]) as (k & Hk & Hsnd & Hfst).
  destruct (send_cont env data rng [Execute start]) as [[e|[]] lg] eqn:Esend;
    cbn [fst snd] in Hsnd, Hfst.
  - exists (S k). split; [lia|]. cbn [fst snd]. split; [|discriminate].
    rewrite Hsnd, Hcmds. cbn [app firstn map]. rewrite firstn_app.
    replace (k - List.length (map (cont_cmd data) rng))%nat with 0%nat
      by (rewrite length_map; lia).
    cbn [firstn]. now rewrite !app_nil_r.
  - specialize (Hfst eq_refl). subst k.
    rewrite load_finish_at. cbv zeta.
    assert (Hsent : commands lg = chunk_cmds data).
    { rewrite Hsnd. rewrite <- (length_map (cont_cmd data)), firstn_all.
      rewrite commands_app, commands_executes. cbn [commands app].
      now rewrite Hcmds. }
    rewrite Hsent.
    assert (Hlg : lg = map Execute (chunk_cmds data)).
    { rewrite Hsnd. rewrite <- (length_map (cont_cmd data)), firstn_all.
      now rewrite Hcmds. }
    exists (S (List.length (chunk_cmds data))). split; [lia|].
    assert (Hfull : List.length (chunk_cmds data ++ [done_cmd argv])%list =
                    S (List.length (chunk_cmds data)))
      by (rewrite length_app; cbn [List.length]; lia).
    rewrite <- Hfull, firstn_all, map_app, Hlg.
    destruct (Py.contains SENTINEL _); cbn [fst snd map].
    + split; [now rewrite app_nil_r|discriminate].
    + split; [|reflexivity]. rewrite <- app_assoc. reflexivity.
Qed.

Lemma load_invoke_run env argv :
  run (SnapshotLoadCommand_invoke env argv) =
  match argv with
  | [] => (inl (GdbError "Usage: snapshot load file_path [name]"), [])
  | f_in :: rest =>
      if (1 <? List.length rest)%nat
      then (inl (GdbError "Usage: snapshot load file_path [name]"), [])
      else if path_exists env f_in
      then match file_contents env f_in with
           | Some data => run (load_session env data argv f_in)
           | None => (inl (OSError f_in), [])
           end
      else (inl (GdbError ("Snapshot file " ++ f_in ++ " doesn't exist!")), [])
  end.
Proof.
  unfold run, SnapshotLoadCommand_invoke.
  destruct argv as [|f_in [|name [|x argv]]]; try reflexivity;
    cbn [List.length Nat.eqb Nat.ltb Nat.leb orb];
    unfold bind at 1; unfold index; cbn [nth_error]; unfold ret at 1;
    destruct (path_exists env f_in); cbn [negb]; try reflexivity;
    destruct (file_contents env f_in); reflexivity.
Qed.

(** X2.  [snapshot load] fails with its usage message when it has no
    argument or more than two, with "Snapshot file ... doesn't exist!"
    when the file named by the first argument does not exist, and with
    the error of [open] when it cannot be read; nothing is sent in
    these cases.  Otherwise it transfers the content of the file.  So
    the command has an effect only when it is given one or two
    arguments and a file that exists and can be read. *)
Theorem load_invoke_guards env argv :
  (List.length argv = 0%nat \/ (2 < List.length argv)%nat ->
   run (SnapshotLoadCommand_invoke env argv) =
     (inl (GdbError "Usage: snapshot load file_path [name]"), [])) /\
  (forall f_in rest,
     argv = f_in :: rest -> (List.length rest <= 1)%nat ->
     path_exists env f_in = false ->
     run (SnapshotLoadCommand_invoke env argv) =
       (inl (GdbError ("Snapshot file " ++ f_in ++ " doesn't exist!")), [])) /\
  (forall f_in rest,
     argv = f_in :: rest -> (List.length rest <= 1)%nat ->
     path_exists env f_in = true -> file_contents env f_in = None ->
     run (SnapshotLoadCommand_invoke env argv) = (inl (OSError f_in), [])) /\
  (forall f_in rest data,
     argv = f_in :: rest -> (List.length rest <= 1)%nat ->
     path_exists env f_in = true -> file_contents env f_in = Some data ->
     run (SnapshotLoadCommand_invoke env argv) =
       run (load_session env data argv f_in)) /\
  (snd (run (SnapshotLoadCommand_invoke env argv)) <> [] ->
   exists f_in data,
     nth_error argv 0 = Some f_in /\
     (List.length argv <= 2)%nat /\
     path_exists env f_in = true /\
     file_contents env f_in = Some data /\
     run (SnapshotLoadCommand_invoke env argv) = run (load_session env data argv f_in)).
Proof.
  rewrite load_invoke_run.
  assert (Hshort : forall rest : list string,
            (List.length rest <= 1)%nat -> (1 <? List.length rest)%nat = false).
  { intros rest H. apply Nat.ltb_ge. exact H. }
  split; [|split; [|split; [|split]]].
  - intros [H|H].
    + destruct argv; [reflexivity|discriminate].
    + destruct argv as [|f_in rest]; [reflexivity|].
      cbn [List.length] in H.
      assert (Hl : (1 <? List.length rest)%nat = true) by (apply Nat.ltb_lt; lia).
      now rewrite Hl.
  - intros f_in rest -> Hrest Hmissing. now rewrite (Hshort rest Hrest), Hmissing.
  - intros f_in rest -> Hrest Hexists Hread.
    now rewrite (Hshort rest Hrest), Hexists, Hread.
  - intros f_in rest data -> Hrest Hexists Hread.
    now rewrite (Hshort rest Hrest), Hexists, Hread.
  - destruct argv as [|f_in rest]; [intros H; now contradiction H|].
    destruct (1 <? List.length rest)%nat eqn:El; [intros H; now contradiction H|].
    apply Nat.ltb_ge in El.
    destruct (path_exists env f_in) eqn:Ee; [|intros H; now contradiction H].
    destruct (file_contents env f_in) as [data|] eqn:Ec; [|intros H; now contradiction H].
    intros _. exists f_in, data.
    split; [reflexivity|split; [cbn [List.length]; lia|auto]].
Qed.

Lemma load_invoke_guards_witness :
  run (SnapshotLoadCommand_invoke (example_env ["3"; "alpha"] [x01; x02; x03])
                                  ["a"; "b"; "c"]) =
    (inl (GdbError "Usage: snapshot load file_path [name]"), []) /\
  run (SnapshotLoadCommand_invoke (example_env_fs ["3"; "alpha"] false None)
                                  ["snap.qsp"; "alpha"]) =
    (inl (GdbError "Snapshot file snap.qsp doesn't exist!"), []) /\
  run (SnapshotLoadCommand_invoke (example_env_fs ["3"; "alpha"] true None)
                                  ["snap.qsp"; "alpha"]) =
    (inl (OSError "snap.qsp"), []) /\
  run (SnapshotLoadCommand_invoke (example_env ["3"; "alpha"] [x01; x02; x03])
                                  ["snap.qsp"; "alpha"]) =
    run (load_session (example_env ["3"; "alpha"] [x01; x02; x03]) [x01; x02; x03]
                      ["snap.qsp"; "alpha"] "snap.qsp") /\
  (exists f_in data,
     nth_error ["snap.qsp"; "alpha"] 0 = Some f_in /\
     (List.length ["snap.qsp"; "alpha"] <= 2)%nat /\
     path_exists (example_env ["3"; "alpha"] [x01; x02; x03]) f_in = true /\
     file_contents (example_env ["3"; "alpha"] [x01; x02; x03]) f_in = Some data /\
     run (SnapshotLoadCommand_invoke (example_env ["3"; "alpha"] [x01; x02; x03])
                                     ["snap.qsp"; "alpha"]) =
     run (load_session (example_env ["3"; "alpha"] [x01; x02; x03]) data
                       ["snap.qsp"; "alpha"] f_in)).
Proof.
  split; [|split; [|split; [|split]]].
  - apply (load_invoke_guards (example_env ["3"; "alpha"] [x01; x02; x03])
             ["a"; "b"; "c"]).
    right. cbn [List.length]. lia.
  - destruct (load_invoke_guards (example_env_fs ["3"; "alpha"] false None)
                ["snap.qsp"; "alpha"]) as (_ & Hmissing & _).
    apply (Hmissing "snap.qsp" ["alpha"]);
      [reflexivity|cbn [List.length]; lia|reflexivity].
  - destruct (load_invoke_guards (example_env_fs ["3"; "alpha"] true None)
                ["snap.qsp"; "alpha"]) as (_ & _ & Hunreadable & _).
    apply (Hunreadable "snap.qsp" ["alpha"]);
      [reflexivity|cbn [List.length]; lia|reflexivity|reflexivity].
  - destruct (load_invoke_guards (example_env ["3"; "alpha"] [x01; x02; x03])
                ["snap.qsp"; "alpha"]) as (_ & _ & _ & Hload & _).
    apply (Hload "snap.qsp" ["alpha"] [x01; x02; x03]);
      [reflexivity|cbn [List.length]; lia|reflexivity|reflexivity].
  - apply (load_invoke_guards (example_env ["3"; "alpha"] [x01; x02; x03])
             ["snap.qsp"; "alpha"]).
    vm_compute. discriminate.
Defined.

(** X3.  A target that acknowledges every chunk with the decimal text of
    its length, as [str] prints it, and answers the last command without
    the sentinel, makes [snapshot load file [name]] succeed: all chunks
    and the [state:done] command are sent, and the name returned by the
    target is printed. *)
Theorem load_invoke_honest_target env f_in rest data :
  (List.length rest <= 1)%nat ->
  path_exists env f_in = true ->
  file_contents env f_in = Some data ->
  (forall k, (k < List.length (chunk_cmds data))%nat ->
     ack env data k = Py.str_of_int (chunk_len data k)) ->
  Py.contains SENTINEL (remote env (chunk_cmds data) (done_cmd (f_in :: rest))) = false ->
  run (SnapshotLoadCommand_invoke env (f_in :: rest)) =
    (inr tt,
     (map Execute (chunk_cmds data ++ [done_cmd (f_in :: rest)])
      ++ [loaded_msg (remote env (chunk_cmds data) (done_cmd (f_in :: rest))) f_in;
          Flush])%list).
Proof.
  intros Hrest Hexists Hread Hack Hfinal.
  assert (Hinvoke : run (SnapshotLoadCommand_invoke env (f_in :: rest)) =
                    run (load_session env data (f_in :: rest) f_in)).
  { rewrite load_invoke_run, Hexists, Hread.
    destruct (1 <? List.length rest)%nat eqn:El; [|reflexivity].
    apply Nat.ltb_lt in El. lia. }
  rewrite Hinvoke. unfold run. rewrite load_session_complete.
  - rewrite load_finish_at. cbv zeta. rewrite commands_executes, Hfinal.
    rewrite map_app. cbn [map]. rewrite <- app_assoc. reflexivity.
  - intros j Hj. unfold ack_ok. rewrite (Hack j Hj). unfold chunk_len.
    apply int_str_small.
    rewrite (chunk_at data j Hj), (length_slice_chunk CHUNK CHUNK_pos).
    change 1024%nat with CHUNK. lia.
Qed.

Lemma load_invoke_honest_target_witness :
  run (SnapshotLoadCommand_invoke
         (example_env ["1024"; "1024"; "452"; "alpha"] (repeat x2a 2500))
         ["snap.qsp"; "alpha"]) =
    (inr tt,
     (map Execute (chunk_cmds (repeat x2a 2500) ++ [done_cmd ["snap.qsp"; "alpha"]])
      ++ [loaded_msg "alpha" "snap.qsp"; Flush])%list).
Proof.
  assert (Hn : List.length (chunk_cmds (repeat x2a 2500)) = 3%nat)
    by (vm_compute; reflexivity).
  apply (load_invoke_honest_target
           (example_env ["1024"; "1024"; "452"; "alpha"] (repeat x2a 2500))
           "snap.qsp" ["alpha"] (repeat x2a 2500)).
  - cbn. lia.
  - reflexivity.
  - reflexivity.
  - intros k Hk. rewrite Hn in Hk.
    destruct k as [|[|[|k]]]; [vm_compute; reflexivity ..|lia].
  - vm_compute. reflexivity.
Defined.

Lemma chunk_cmds_payloads data :
  chunk_cmds data = data_cmds (map Py.bytes_hex (load_chunks data)).
Proof.
  unfold chunk_cmds, load_chunks, chunk_offsets, data_cmds.
  cbn [map]. rewrite !map_map. reflexivity.
Qed.

(** X4.  In a load whose chunks are all acknowledged with their length,
    the commands sent are the data commands of a list of payloads (the
    first in state [start], the others in state [cont]) followed by
    the [state:done] command; these payloads, put end to end, are the
    hexadecimal text of the whole file, which [bytes.fromhex] reads
    back as the file.  So a file written by [snapshot save] reaches the
    target unchanged. *)
Theorem load_payloads_reassemble env data argv f_in :
  (forall k, (k < List.length (chunk_cmds data))%nat -> ack_ok env data k) ->
  exists payloads,
    commands (snd (run (load_session env data argv f_in))) =
      (data_cmds payloads ++ [done_cmd argv])%list /\
    join payloads = Py.bytes_hex data /\
    Py.bytes_fromhex (join payloads) = Some data.
Proof.
  intros Hack. exists (map Py.bytes_hex (load_chunks data)).
  assert (Hrt : forall b, Py.bytes_fromhex (Py.bytes_hex b) = Some b).
  { intros b. rewrite <- (append_empty_r (Py.bytes_hex b)), fromhex_hex_app.
    cbn [Py.bytes_fromhex]. now rewrite app_nil_r. }
  split; [|split].
  - unfold run. rewrite load_session_complete by exact Hack.
    rewrite load_finish_at. cbv zeta. rewrite <- chunk_cmds_payloads.
    destruct (Py.contains SENTINEL _); cbn [snd];
      rewrite commands_app, commands_executes; reflexivity.
  - now rewrite join_hex, concat_load_chunks.
  - now rewrite join_hex, concat_load_chunks.
Qed.

Lemma load_payloads_reassemble_witness :
  exists payloads,
    commands (snd (run (load_session (example_env ["1024"; "1024"; "452"; "snap"] [])
                                     (repeat x2a 2500) ["snap.qsp"] "snap.qsp"))) =
      (data_cmds payloads ++ [done_cmd ["snap.qsp"]])%list /\
    join payloads = Py.bytes_hex (repeat x2a 2500) /\
    Py.bytes_fromhex (join payloads) = Some (repeat x2a 2500).
Proof.
  assert (Hn : List.length (chunk_cmds (repeat x2a 2500)) = 3%nat)
    by (vm_compute; reflexivity).
  apply (load_payloads_reassemble (example_env ["1024"; "1024"; "452"; "snap"] [])
           (repeat x2a 2500) ["snap.qsp"] "snap.qsp").
  intros k Hk. rewrite Hn in Hk.
  destruct k as [|[|[|k]]]; [vm_compute; reflexivity ..|lia].
Defined.

(** X5.  A data chunk carries at most 1024 bytes, and every chunk but
    the last carries exactly 1024; its payload has two characters per
    byte, so a data command never has more than 2087 characters. *)
Theorem chunk_sizes data k :
  (k < List.length (chunk_cmds data))%nat ->
  (List.length (chunk data k) <= CHUNK)%nat /\
  ((S k < List.length (chunk_cmds data))%nat -> List.length (chunk data k) = CHUNK) /\
  String.length (Py.bytes_hex (chunk data k)) = (2 * List.length (chunk data k))%nat /\
  (String.length (nth k (chunk_cmds data) "") <= 2087)%nat.
Proof.
  intros Hk.
  assert (Hlen : List.length (chunk data k) =
                 Nat.min CHUNK (List.length data - k * CHUNK)).
  { rewrite (chunk_at data k Hk). apply (length_slice_chunk CHUNK CHUNK_pos). }
  assert (Hle : (List.length (chunk data k) <= 1024)%nat).
  { rewrite Hlen. change 1024%nat with CHUNK. lia. }
  split; [rewrite Hlen; lia|split; [|split]].
  - intros Hnext. rewrite length_chunk_cmds in Hnext.
    pose proof (full_chunk CHUNK (List.length data) k CHUNK_pos ltac:(lia)).
    rewrite Hlen. lia.
  - apply length_bytes_hex.
  - rewrite (chunk_cmds_nth data k Hk), !length_append, length_bytes_hex.
    destruct (k =? 0)%nat; cbn [String.length]; lia.
Qed.

Lemma chunk_sizes_witness :
  (List.length (chunk (repeat x2a 2500) 1) <= CHUNK)%nat /\
  ((2 < List.length (chunk_cmds (repeat x2a 2500)))%nat ->
   List.length (chunk (repeat x2a 2500) 1) = CHUNK) /\
  String.length (Py.bytes_hex (chunk (repeat x2a 2500) 1)) =
    (2 * List.length (chunk (repeat x2a 2500) 1))%nat /\
  (String.length (nth 1 (chunk_cmds (repeat x2a 2500)) "") <= 2087)%nat.
Proof.
  apply (chunk_sizes (repeat x2a 2500) 1).
  assert (Hn : List.length (chunk_cmds (repeat x2a 2500)) = 3%nat)
    by (vm_compute; reflexivity).
  rewrite Hn. lia.
Defined.

(** ** The catalog and its users *)

Lemma spec_catalog_inv lines : forall d d',
  spec_catalog lines d = Some d' ->
  exists records,
    map spec_record lines = map Some records /\ d' = fold_left set_record records d.
Proof.
  induction lines as [|line lines IH]; intros d d' H; cbn [spec_catalog] in H.
  - injection H as <-. now exists [].
  - destruct (spec_record line) as [[name n]|] eqn:E; [|discriminate].
    destruct (IH _ _ H) as (records & Hmap & Hd).
    exists ((name, n) :: records). cbn [map fold_left]. rewrite E, Hmap.
    split; [reflexivity|exact Hd].
Qed.

Lemma dict_get_some_in k v d : dict_get k d = Some v -> In (k, v) d.
Proof.
  induction d as [|[k0 v0] d IH]; cbn [dict_get]; [discriminate|].
  destruct (String.eqb k0 k) eqn:E.
  - apply String.eqb_eq in E. subst k0. intros H. injection H as <-. now left.
  - intros H. right. now apply IH.
Qed.

Lemma in_dict_get k v d : In (k, v) d -> exists v', dict_get k d = Some v'.
Proof.
  induction d as [|[k0 v0] d IH]; [intros []|].
  intros [H|H]; cbn [dict_get].
  - injection H as -> ->. rewrite String.eqb_refl. eauto.
  - destruct (String.eqb k0 k); eauto.
Qed.

Lemma spec_record_split line name v :
  spec_record line = Some (name, v) ->
  exists offset, split_first ":" line = Some (name, offset) /\ Py.int 16 offset = Some v.
Proof.
  unfold spec_record. destruct (split_first ":" line) as [[a b]|]; [|discriminate].
  destruct (Py.int 16 b) as [n|] eqn:E; [|discriminate].
  intros H. injection H as -> ->. eauto.
Qed.

(** X6.  A catalog returned by [get_snapshots_info] never holds a name
    twice; a name is in it exactly when some non-empty line of the
    response has that name before its colon, and the offset stored for
    a name is the base-16 reading of the text after the colon on such a
    line. *)
Theorem catalog_entries_come_from_lines env d :
  fst (run (get_snapshots_info env)) = inr d ->
  NoDup (map fst d) /\
  (forall name,
     dict_mem name d = true <->
     exists line offset,
       In line (info_lines (remote env [] INFO)) /\
       split_first ":" line = Some (name, offset)) /\
  (forall name v,
     dict_get name d = Some v ->
     exists line offset,
       In line (info_lines (remote env [] INFO)) /\
       split_first ":" line = Some (name, offset) /\
       Py.int 16 offset = Some v).
Proof.
  unfold run. rewrite get_snapshots_info_at. cbn [fst commands]. intros Hparse.
  pose proof (parse_info_refines (remote env [] INFO)) as Href.
  unfold spec_parse_info in Href.
  destruct (spec_catalog (info_lines (remote env [] INFO)) []) as [d'|] eqn:Ecat;
    [|destruct Href as [why Hwhy]; congruence].
  assert (d' = d) by congruence. subst d'.
  destruct (spec_catalog_inv _ _ _ Ecat) as (records & Hmap & Hd).
  assert (Hget : forall name, dict_get name d = dict_get name (rev records)).
  { intros name. rewrite Hd, fold_set_get.
    destruct (dict_get name (rev records)); reflexivity. }
  assert (Hline : forall name v, In (name, v) records ->
            exists line, In line (info_lines (remote env [] INFO)) /\
                         spec_record line = Some (name, v)).
  { intros name v Hin.
    assert (Hs : In (Some (name, v)) (map spec_record (info_lines (remote env [] INFO)))).
    { rewrite Hmap. now apply in_map. }
    apply in_map_iff in Hs. destruct Hs as (line & Hrec & Hl). eauto. }
  assert (Hthird : forall name v, dict_get name d = Some v ->
            exists line offset,
              In line (info_lines (remote env [] INFO)) /\
              split_first ":" line = Some (name, offset) /\
              Py.int 16 offset = Some v).
  { intros name v Hv. rewrite Hget in Hv. apply dict_get_some_in in Hv.
    apply in_rev in Hv. destruct (Hline name v Hv) as (line & Hin & Hrec).
    destruct (spec_record_split line name v Hrec) as (offset & Hs & Hi).
    exists line, offset. auto. }
  split; [|split].
  - rewrite Hd. apply fold_set_nodup. constructor.
  - intros name. unfold dict_mem. split.
    + destruct (dict_get name d) as [v|] eqn:Ev; [|discriminate].
      intros _. destruct (Hthird name v Ev) as (line & offset & Hin & Hs & _). eauto.
    + intros (line & offset & Hin & Hs).
      assert (Hsome : In (spec_record line) (map Some records)).
      { rewrite <- Hmap. now apply in_map. }
      apply in_map_iff in Hsome. destruct Hsome as ([name' v'] & Hrec & Hin').
      symmetry in Hrec.
      destruct (spec_record_split line name' v' Hrec) as (offset' & Hs' & _).
      assert (name' = name) by congruence. subst name'.
      apply in_rev in Hin'.
      destruct (in_dict_get name v' _ Hin') as (v'' & Hv'').
      rewrite Hget, Hv''. reflexivity.
  - exact Hthird.
Qed.

Lemma catalog_entries_come_from_lines_witness :
  NoDup (map fst [("alpha", 128%Z); ("beta", 31%Z)]) /\
  (forall name,
     dict_mem name [("alpha", 128%Z); ("beta", 31%Z)] = true <->
     exists line offset,
       In line (info_lines ("alpha:40" ++ NL ++ "beta:1f" ++ NL ++ "alpha:80")) /\
       split_first ":" line = Some (name, offset)).
Proof.
  destruct (catalog_entries_come_from_lines
              (example_env ["alpha:40" ++ NL ++ "beta:1f" ++ NL ++ "alpha:80"] [])
              [("alpha", 128%Z); ("beta", 31%Z)]) as (H1 & H2 & _).
  - vm_compute. reflexivity.
  - split; [exact H1|exact H2].
Defined.

Lemma write_rows_at rows : forall lg,
  write_rows rows lg = (inr tt, (lg ++ map info_row rows)%list).
Proof.
  induction rows as [|[name offset] rows IH]; intros lg.
  - cbn. now rewrite app_nil_r.
  - cbn [write_rows map]. unfold bind, gdb_write, emit. rewrite IH.
    rewrite <- app_assoc. reflexivity.
Qed.

Lemma info_run env argv :
  run (SnapshotInfoCommand_invoke env argv) =
  match parse_info (remote env [] INFO) with
  | inl e => (inl e, [Execute INFO])
  | inr snaps =>
      (inr tt,
       (Execute INFO
          :: Write (NL ++ "Offset (PC): Name" ++ NL)
          :: Write ("-----------------" ++ NL)
          :: map info_row snaps ++ [Write NL; Flush])%list)
  end.
Proof.
  unfold run, SnapshotInfoCommand_invoke. unfold bind at 1.
  rewrite get_snapshots_info_at. cbn [commands app].
  destruct (parse_info (remote env [] INFO)) as [e|snaps]; [reflexivity|].
  unfold bind, gdb_write, gdb_flush, emit. cbn [app]. rewrite write_rows_at.
  cbn [app]. rewrite <- app_assoc. reflexivity.
Qed.

(** X7.  [snapshot info] ignores its arguments.  When the response
    parses, it prints the two header lines, one row [hex(offset): name]
    per catalog entry in the order of the catalog, an empty line, and
    flushes: three lines more than there are names.  The offset of each
    row reads back in base 16 as the offset of the catalog. *)
Theorem info_prints_catalog env argv snaps :
  parse_info (remote env [] INFO) = inr snaps ->
  run (SnapshotInfoCommand_invoke env argv) =
    (inr tt,
     (Execute INFO
        :: Write (NL ++ "Offset (PC): Name" ++ NL)
        :: Write ("-----------------" ++ NL)
        :: map info_row snaps ++ [Write NL; Flush])%list) /\
  List.length (filter (fun e => match e with Write _ => true | _ => false end)
                      (snd (run (SnapshotInfoCommand_invoke env argv)))) =
    (3 + List.length snaps)%nat /\
  (forall name offset,
     In (name, offset) snaps ->
     In (Write (Py.hex offset ++ ": " ++ name ++ NL))
        (snd (run (SnapshotInfoCommand_invoke env argv))) /\
     Py.int 16 (Py.hex offset) = Some offset).
Proof.
  intros Hparse. rewrite info_run, Hparse. split; [reflexivity|split].
  - cbn [snd filter]. rewrite filter_app. cbn [filter List.length].
    rewrite length_app. cbn [List.length].
    assert (Hrows : forall l, filter (fun e => match e with Write _ => true | _ => false end)
                                     (map info_row l) = map info_row l).
    { induction l as [|x l IH]; [reflexivity|]. cbn [map filter info_row]. now rewrite IH. }
    rewrite Hrows, length_map. lia.
  - intros name offset Hin. split; [|apply int_hex].
    cbn [snd]. right. right. right. apply in_or_app. left.
    change (Write (Py.hex offset ++ ": " ++ name ++ NL)) with (info_row (name, offset)).
    now apply in_map.
Qed.

Lemma info_prints_catalog_witness :
  run (SnapshotInfoCommand_invoke
         (example_env ["alpha:40" ++ NL ++ "beta:-0x1f"] []) ["ignored"]) =
    (inr tt,
     [Execute INFO;
      Write (NL ++ "Offset (PC): Name" ++ NL);
      Write ("-----------------" ++ NL);
      Write ("0x40: alpha" ++ NL);
      Write ("-0x1f: beta" ++ NL);
      Write NL; Flush]).
Proof.
  destruct (info_prints_catalog (example_env ["alpha:40" ++ NL ++ "beta:-0x1f"] [])
              ["ignored"] [("alpha", 64%Z); ("beta", (-31)%Z)]) as (H & _).
  - vm_compute. reflexivity.
  - rewrite H. vm_compute. reflexivity.
Defined.

(** X8.  A malformed [info] response stops [snapshot info], [snapshot
    restore] and [snapshot save] alike: each fails with the
    [ValueError] of the parser right after the [info] command, and
    nothing is printed, sent or written afterwards. *)
Theorem malformed_catalog_stops_commands env name :
  spec_parse_info (remote env [] INFO) = None ->
  exists why,
    (forall argv,
       run (SnapshotInfoCommand_invoke env argv) = (inl (ValueError why), [Execute INFO])) /\
    run (SnapshotRestoreCommand_invoke env [name]) = (inl (ValueError why), [Execute INFO]) /\
    run (SnapshotSaveCommand_invoke env [name]) = (inl (ValueError why), [Execute INFO]).
Proof.
  intros Hbad. pose proof (parse_info_refines (remote env [] INFO)) as Href.
  rewrite Hbad in Href. destruct Href as [why Hwhy]. exists why.
  split; [|split].
  - intros argv. now rewrite info_run, Hwhy.
  - now rewrite restore_run, Hwhy.
  - now rewrite save_run, Hwhy.
Qed.

Lemma malformed_catalog_stops_commands_witness :
  exists why,
    (forall argv,
       run (SnapshotInfoCommand_invoke (example_env ["alpha"; "alpha"] []) argv) =
         (inl (ValueError why), [Execute INFO])) /\
    run (SnapshotRestoreCommand_invoke (example_env ["alpha"; "alpha"] []) ["alpha"]) =
      (inl (ValueError why), [Execute INFO]) /\
    run (SnapshotSaveCommand_invoke (example_env ["alpha"; "alpha"] []) ["alpha"]) =
      (inl (ValueError why), [Execute INFO]).
Proof.
  apply (malformed_catalog_stops_commands (example_env ["alpha"; "alpha"] []) "alpha").
  vm_compute. reflexivity.
Defined.

(** ** Restore, save and create: what is sent and written *)

Lemma restore_usage env argv :
  List.length argv <> 1%nat ->
  run (SnapshotRestoreCommand_invoke env argv) =
    (inl (GdbError "Usage: snapshot restore $snapshot_name"), []).
Proof.
  destruct argv as [|a [|b argv]]; cbn [List.length]; intros H;
    [reflexivity|now contradiction H|reflexivity].
Qed.

(** X9.  [snapshot restore] sends something only when it has exactly
    one argument, and then nothing but the [info] command and, for a
    name that the parsed catalog holds, the restore command of that
    name.  With any other number of arguments it fails with its usage
    message and sends nothing. *)
Theorem restore_sends_only_listed env argv :
  (List.length argv <> 1%nat ->
   run (SnapshotRestoreCommand_invoke env argv) =
     (inl (GdbError "Usage: snapshot restore $snapshot_name"), [])) /\
  (forall c,
     In (Execute c) (snd (run (SnapshotRestoreCommand_invoke env argv))) ->
     exists name,
       argv = [name] /\
       (c = INFO \/
        (c = restore_cmd name /\
         exists snaps,
           parse_info (remote env [] INFO) = inr snaps /\ dict_mem name snaps = true))).
Proof.
  split; [apply restore_usage|].
  intros c Hin.
  destruct argv as [|name [|b argv]].
  - rewrite restore_usage in Hin by (cbn; lia). destruct Hin.
  - exists name. split; [reflexivity|].
    rewrite restore_run in Hin.
    destruct (parse_info (remote env [] INFO)) as [e|snaps] eqn:Ep.
    + destruct Hin as [H|[]]. injection H as <-. now left.
    + destruct (dict_mem name snaps) eqn:Em.
      * cbv zeta in Hin.
        assert (Hc : c = INFO \/ c = restore_cmd name).
        { destruct (_ && _); cbn [snd In] in Hin;
            repeat (destruct Hin as [H|Hin]; [try discriminate; injection H; auto|]);
            contradiction. }
        destruct Hc as [->| ->]; [now left|right]. eauto.
      * destruct Hin as [H|[]]. injection H as <-. now left.
  - rewrite restore_usage in Hin by (cbn; lia). destruct Hin.
Qed.

Lemma restore_sends_only_listed_witness :
  exists name,
    ["alpha"] = [name] /\
    ("monitor snapshot;restore;name:alpha" = INFO \/
     ("monitor snapshot;restore;name:alpha" = restore_cmd name /\
      exists snaps,
        parse_info (remote (example_env ["alpha:40"; "alpha"] []) [] INFO) = inr snaps /\
        dict_mem name snaps = true)).
Proof.
  apply (restore_sends_only_listed (example_env ["alpha:40"; "alpha"] []) ["alpha"]).
  vm_compute. right. left. reflexivity.
Defined.

Lemma save_usage env argv :
  List.length argv <> 1%nat ->
  snd (run (SnapshotSaveCommand_invoke env argv)) = [] /\
  exists e, fst (run (SnapshotSaveCommand_invoke env argv)) = inl e.
Proof.
  destruct argv as [|a [|b [|c argv]]]; cbn [List.length]; intros H;
    try (now contradiction H); split; try reflexivity; eexists; reflexivity.
Qed.

(** X10.  [snapshot save] sends something only when it has exactly one
    argument, and then nothing but the [info] command and, for a name
    in the parsed catalog and an existing target directory, the save
    command of that name.  What it writes is the decoded response of
    that command, into [./name.qsp], and only when the response holds
    no sentinel; the command then succeeds. *)
Theorem save_effects_guarded env argv :
  (forall c,
     In (Execute c) (snd (run (SnapshotSaveCommand_invoke env argv))) ->
     exists name,
       argv = [name] /\
       (c = INFO \/
        (c = save_cmd name /\
         path_exists env (Py.dirname (save_path name)) = true /\
         exists snaps,
           parse_info (remote env [] INFO) = inr snaps /\ dict_mem name snaps = true))) /\
  (forall path blob,
     In (FileWrite path blob) (snd (run (SnapshotSaveCommand_invoke env argv))) ->
     exists name,
       argv = [name] /\ path = save_path name /\
       Py.contains SENTINEL (remote env [INFO] (save_cmd name)) = false /\
       Py.bytes_fromhex (remote env [INFO] (save_cmd name)) = Some blob /\
       fst (run (SnapshotSaveCommand_invoke env argv)) = inr tt).
Proof.
  destruct argv as [|name [|b argv]].
  - destruct (save_usage env [] ltac:(cbn; lia)) as [Hlog _]. rewrite Hlog.
    split; intros; contradiction.
  - rewrite save_run.
    destruct (parse_info (remote env [] INFO)) as [e|snaps] eqn:Ep.
    { split.
      - intros c [H|[]]. injection H as <-. exists name. auto.
      - intros path blob [H|[]]. discriminate. }
    destruct (dict_mem name snaps) eqn:Em; cbn [negb].
    2:{ split.
        - intros c [H|[]]. injection H as <-. exists name. auto.
        - intros path blob [H|[]]. discriminate. }
    destruct (path_exists env (Py.dirname (save_path name))) eqn:Ed; cbn [negb].
    2:{ split.
        - intros c [H|[]]. injection H as <-. exists name. auto.
        - intros path blob [H|[]]. discriminate. }
    cbv zeta.
    assert (Hsent : forall c lg,
              In (Execute c) lg ->
              (forall x, In x lg -> x = Execute INFO \/ x = Execute (save_cmd name) \/
                                    forall c', x <> Execute c') ->
              exists name0, [name] = [name0] /\
                (c = INFO \/
                 (c = save_cmd name0 /\
                  path_exists env (Py.dirname (save_path name0)) = true /\
                  exists snaps0, inr snaps = @inr exception dict snaps0 /\
                                 dict_mem name0 snaps0 = true))).
    { intros c lg Hin Hall. exists name. split; [reflexivity|].
      destruct (Hall _ Hin) as [H|[H|H]].
      - injection H as ->. now left.
      - injection H as ->. right. eauto.
      - now contradiction (H c). }
    destruct (Py.contains SENTINEL _) eqn:Es.
    { split.
      - intros c Hin. apply (Hsent c _ Hin).
        intros x [<-|[<-|[]]]; auto.
      - intros path blob [H|[H|[]]]; discriminate. }
    destruct (writable env (save_path name)); cbn [negb].
    2:{ split.
        - intros c Hin. apply (Hsent c _ Hin).
          intros x [<-|[<-|[]]]; auto.
        - intros path blob [H|[H|[]]]; discriminate. }
    destruct (Py.bytes_fromhex _) as [blob0|] eqn:Eh; cbn [app].
    + split.
      * intros c Hin. apply (Hsent c _ Hin).
        intros x [<-|[<-|[<-|[<-|[<-|[<-|[]]]]]]]; auto; right; right; discriminate.
      * intros path blob Hin. cbn [snd In] in Hin.
        repeat (destruct Hin as [H|Hin]; [try discriminate|]); [|contradiction].
        injection H as <- <-. exists name. auto.
    + split.
      * intros c Hin. apply (Hsent c _ Hin).
        intros x [<-|[<-|[<-|[]]]]; auto; right; right; discriminate.
      * intros path blob Hin. cbn [snd In] in Hin.
        repeat (destruct Hin as [H|Hin]; [try discriminate|]); contradiction.
  - destruct (save_usage env (name :: b :: argv) ltac:(cbn; lia)) as [Hlog _].
    rewrite Hlog. split; intros; contradiction.
Qed.

Lemma save_effects_guarded_witness :
  exists name,
    ["alpha"] = [name] /\ "./alpha.qsp" = save_path name /\
    Py.contains SENTINEL
      (remote (example_env ["alpha:40"; "00ff2a"] []) [INFO] (save_cmd name)) = false /\
    Py.bytes_fromhex
      (remote (example_env ["alpha:40"; "00ff2a"] []) [INFO] (save_cmd name)) =
      Some [x00; xff; x2a] /\
    fst (run (SnapshotSaveCommand_invoke (example_env ["alpha:40"; "00ff2a"] [])
                                         ["alpha"])) = inr tt.
Proof.
  apply (save_effects_guarded (example_env ["alpha:40"; "00ff2a"] []) ["alpha"]).
  vm_compute. do 3 right. left. reflexivity.
Defined.








(** X12.  [snapshot create] reads its first argument only: further
    arguments are ignored, and an empty first argument is the same as
    none.  Without a name it sends [create] and succeeds exactly when
    the response holds no sentinel; with a name it sends
    [create;name:...] and succeeds exactly when the response is that
    name and holds no sentinel. *)
Theorem create_arguments env :
  (forall a rest,
     run (SnapshotCreateCommand_invoke env (a :: rest)) =
     run (SnapshotCreateCommand_invoke env [a])) /\
  run (SnapshotCreateCommand_invoke env [""]) = run (SnapshotCreateCommand_invoke env []) /\
  (fst (run (SnapshotCreateCommand_invoke env [])) = inr tt <->
   Py.contains SENTINEL (remote env [] "monitor snapshot;create") = false) /\
  (forall a,
     Py.truthy a = true ->
     (fst (run (SnapshotCreateCommand_invoke env [a])) = inr tt <->
      remote env [] ("monitor snapshot;create;name:" ++ a) = a /\
      Py.contains SENTINEL a = false)).
Proof.
  split; [|split; [|split]].
  - intros a rest. now rewrite !create_run.
  - now rewrite !create_run.
  - rewrite create_run. cbv zeta. cbn [truthy_opt andb orb create_cmd append].
    destruct (Py.contains SENTINEL _); cbn [fst]; split; congruence.
  - intros a Ha. rewrite create_run. cbv zeta.
    unfold create_cmd. cbn [truthy_opt eqb_opt]. rewrite Ha. cbn [append andb].
    set (r := remote env [] _).
    destruct (String.eqb r a) eqn:Er; cbn [negb orb].
    + apply String.eqb_eq in Er. rewrite Er.
      destruct (Py.contains SENTINEL a); cbn [fst]; split.
      * discriminate.
      * intros [_ H]. discriminate.
      * intros _. split; reflexivity.
      * reflexivity.
    + apply String.eqb_neq in Er. cbn [fst]. split; [discriminate|].
      intros [H _]. contradiction.
Qed.

Lemma create_arguments_witness :
  fst (run (SnapshotCreateCommand_invoke (example_env ["alpha"] []) ["alpha"])) = inr tt <->
  remote (example_env ["alpha"] []) [] ("monitor snapshot;create;name:" ++ "alpha") = "alpha"
  /\ Py.contains SENTINEL "alpha" = false.
Proof.
  apply (create_arguments (example_env ["alpha"] [])). reflexivity.
Defined.

(** X13.  A snapshot whose name contains the sentinel can be neither
    created by name nor restored: the response is tested for the
    sentinel even when it is the requested name, so both commands fail
    whatever the target answers. *)
Theorem sentinel_in_name_always_fails env name :
  Py.contains SENTINEL name = true ->
  (exists e, fst (run (SnapshotCreateCommand_invoke env [name])) = inl e) /\
  (exists e, fst (run (SnapshotRestoreCommand_invoke env [name])) = inl e).
Proof.
  intros Hs.
  assert (Hfail : forall r, negb (String.eqb r name) || Py.contains SENTINEL r = true).
  { intros r. destruct (String.eqb r name) eqn:Er; [|reflexivity].
    apply String.eqb_eq in Er. subst r. now rewrite Hs. }
  split.
  - rewrite create_run. cbv zeta. cbn [truthy_opt eqb_opt].
    assert (Ht : Py.truthy name = true).
    { destruct name; [discriminate|reflexivity]. }
    rewrite Ht. cbn [andb]. rewrite Hfail. eexists. reflexivity.
  - rewrite restore_run.
    destruct (parse_info (remote env [] INFO)) as [e|snaps]; [eexists; reflexivity|].
    destruct (dict_mem name snaps); [|eexists; reflexivity].
    cbv zeta. specialize (Hfail (remote env [INFO] (restore_cmd name))).
    destruct (String.eqb _ name); cbn [negb orb andb] in *.
    + rewrite Hfail. eexists. reflexivity.
    + eexists. reflexivity.
Qed.

Lemma sentinel_in_name_always_fails_witness :
  (exists e,
     fst (run (SnapshotCreateCommand_invoke (example_env ["SNAPSHOT ERROR"] [])
                                            ["SNAPSHOT ERROR"])) = inl e) /\
  (exists e,
     fst (run (SnapshotRestoreCommand_invoke
                 (example_env ["SNAPSHOT ERROR:1"; "SNAPSHOT ERROR"] [])
                 ["SNAPSHOT ERROR"])) = inl e).
Proof.
  split.
  - apply (sentinel_in_name_always_fails (example_env ["SNAPSHOT ERROR"] [])
             "SNAPSHOT ERROR"). reflexivity.
  - apply (sentinel_in_name_always_fails
             (example_env ["SNAPSHOT ERROR:1"; "SNAPSHOT ERROR"] []) "SNAPSHOT ERROR").
    reflexivity.
Defined.

Lemma splitlines_trailing_newline n : forall s line,
  (String.length s <= n)%nat ->
  filter Py.truthy (Py.splitlines_from line (s ++ NL)) =
  filter Py.truthy (Py.splitlines_from line s).
Proof.
  induction n as [|n IH]; intros s line Hlen.
  - destruct s; [|cbn in Hlen; lia].
    cbn. destruct (Py.truthy line) eqn:E; cbn; rewrite ?E; reflexivity.
  - destruct s as [|c rest];
      [cbn; destruct (Py.truthy line) eqn:E; cbn; rewrite ?E; reflexivity|].
    cbn [String.length] in Hlen. cbn [append Py.splitlines_from].
    destruct (Py.is_linebreak c).
    + destruct (Py.code c =? 13)%N.
      * destruct rest as [|c' rest'].
        -- reflexivity.
        -- cbn [append]. cbn [String.length] in Hlen.
           destruct (Py.code c' =? 10)%N; cbn [filter];
             [rewrite (IH rest') by lia|
              change (String c' (rest' ++ NL)) with (String c' rest' ++ NL);
              rewrite (IH (String c' rest')) by (cbn [String.length]; lia)];
             reflexivity.
      * cbn [filter]. rewrite (IH rest) by lia. reflexivity.
    + apply IH. lia.
Qed.

(** X14.  A newline before the first record or after the last one does
    not change what [get_snapshots_info] makes of a response: the same
    catalog, or the same failure. *)
Theorem info_ignores_outer_newlines ret_info :
  parse_info (ret_info ++ NL) = parse_info ret_info /\
  parse_info (NL ++ ret_info) = parse_info ret_info.
Proof.
  unfold parse_info, info_rows, Py.splitlines. split.
  - now rewrite (splitlines_trailing_newline (String.length ret_info)).
  - reflexivity.
Qed.
